(** * The payment routes of the storefront server

    A shallow embedding of [server/routes/payment.js]: the three POST
    handlers [/create-order], [/verify] and [/manual], the credential
    helper [getRazorpayInstance], and the fragment of JavaScript they
    rely on (truthiness, [||], [Number], [parseFloat], [String],
    [Math.round], [trim], the pincode pattern, HMAC-SHA256 over UTF-8).

    A handler is a function from an environment (process environment,
    settings record, payment provider), a world (the product collection
    and the order collection) and a request to a response and a new
    world.  An early [return res.status(..).json(..)] is a branch that
    ends with that response; a [throw] that reaches the handler's
    [catch] is the response of the [catch].

    Conventions.  Strings are sequences of UTF-16 code units.  A finite
    number is the exact rational it denotes.  The scalar fields of a
    body range over undefined, null, booleans, numbers and strings.
    Reads and writes of the collections always succeed, and the
    confirmation mail, which touches no collection, is left out.  The
    inventory loops of [/verify] and [/manual] are the same text in the
    source and are one function here.

    The origin check that [server/index.js] gives to [cors] is embedded
    in [Cors]: a function from [CLIENT_URL] and the Origin header to the
    verdict.  Its [toLowerCase] is the one of strings of code units below
    256, which is what a header value is. *)

From Stdlib Require Import ZArith NArith QArith Qround Qreduction Qcanon Lia.
From Stdlib Require Import String Ascii.
From Stdlib Require Import DecimalN DecimalPos DecimalFacts.
From stdpp Require Import base list gmap.

Local Open Scope N_scope.

(** ** JavaScript strings, numbers and primitive values *)

Module Js.

(** A string is its sequence of UTF-16 code units. *)
Abbreviation str := (list N).

Definition lit (s : string) : str :=
  List.map N_of_ascii (list_ascii_of_string s).

Definition str_eqb (a b : str) : bool := bool_decide (a = b).

(** WhiteSpace and LineTerminator code points, as [trim] and the
    numeric-string grammar strip them. *)
Definition is_ws (c : N) : bool :=
  ((9 <=? c) && (c <=? 13)) || (c =? 32) || (c =? 160) || (c =? 5760)
  || ((8192 <=? c) && (c <=? 8202)) || (c =? 8232) || (c =? 8233)
  || (c =? 8239) || (c =? 8287) || (c =? 12288) || (c =? 65279).

Fixpoint trimStart (s : str) : str :=
  match s with
  | c :: t => if is_ws c then trimStart t else s
  | [] => []
  end.

Definition trimEnd (s : str) : str := rev (trimStart (rev s)).

Definition trim (s : str) : str := trimEnd (trimStart s).

(** A number is NaN, an infinity, or a finite value, which is held as the
    exact rational it denotes; the two zeros are one value.  Comparison,
    subtraction and [Math.round] below are the exact ones: on integers of
    magnitude up to 2^53 and on dyadic fractions of few bits, which is
    where quantities, stocks and paise amounts live, binary64 computes
    the same results. *)
Inductive num : Type :=
| NaN
| PInf
| NInf
| Fin (q : Q).

(** [a < b] *)
Definition lt (a b : num) : bool :=
  match a, b with
  | NaN, _ | _, NaN => false
  | PInf, _ | _, NInf => false
  | NInf, _ | _, PInf => true
  | Fin x, Fin y => negb (Qle_bool y x)
  end.

(** [a <= b] *)
Definition le (a b : num) : bool :=
  match a, b with
  | NaN, _ | _, NaN => false
  | NInf, _ | _, PInf => true
  | PInf, _ | _, NInf => false
  | Fin x, Fin y => Qle_bool x y
  end.

(** [a - b] *)
Definition sub (a b : num) : num :=
  match a, b with
  | NaN, _ | _, NaN => NaN
  | PInf, PInf | NInf, NInf => NaN
  | PInf, _ | _, NInf => PInf
  | NInf, _ | _, PInf => NInf
  | Fin x, Fin y => Fin (Qred (x - y))
  end.

Definition Number_isFinite (n : num) : bool :=
  match n with Fin _ => true | _ => false end.

(** [Math.round]: the nearest integer, a tie going up. *)
Definition Math_round (n : num) : num :=
  match n with
  | Fin q => Fin (inject_Z (Qfloor (q + (1 # 2))))
  | _ => n
  end.

Definition of_Z (z : Z) : num := Fin (inject_Z z).

(** The same number, whatever fraction stands for a finite one. *)
Definition num_same (a b : num) : Prop :=
  match a, b with
  | NaN, NaN | PInf, PInf | NInf, NInf => True
  | Fin x, Fin y => (x == y)%Q
  | _, _ => False
  end.

(** The integer a number is, when it is one. *)
Definition is_integer (n : num) : Prop :=
  match n with
  | Fin q => exists z : Z, (q == inject_Z z)%Q
  | _ => False
  end.

(** The primitive values a JSON body field can hold ([VUndef] for an
    absent one).  Arrays and objects occur in the bodies only as the
    item list and its items, which have their own types below. *)
Inductive val : Type :=
| VUndef
| VNull
| VBool (b : bool)
| VNum (n : num)
| VStr (s : str).

(** ToBoolean *)
Definition truthy (v : val) : bool :=
  match v with
  | VUndef | VNull => false
  | VBool b => b
  | VNum NaN => false
  | VNum (Fin q) => negb (Qeq_bool q 0)
  | VNum _ => true
  | VStr s => match s with [] => false | _ => true end
  end.

(** [a || b] *)
Definition or (a b : val) : val := if truthy a then a else b.

(** [typeof v === 'string'] *)
Definition is_string (v : val) : bool :=
  match v with VStr _ => true | _ => false end.

(** *** Decimal digits *)

Definition is_digit (c : N) : bool := (48 <=? c) && (c <=? 57).

(** The value of [c] as a digit of the radix, if it is one. *)
Definition digit_of (radix c : N) : option N :=
  let d :=
    if (48 <=? c) && (c <=? 57) then Some (c - 48)
    else if (97 <=? c) && (c <=? 102) then Some (c - 87)
    else if (65 <=? c) && (c <=? 70) then Some (c - 55)
    else None in
  match d with
  | Some k => if k <? radix then Some k else None
  | None => None
  end.

(** Reads the longest run of digits at the head of [s]: the value read
    after [acc], the number of digits and the rest. *)
Fixpoint read_digits (radix : N) (acc : N) (k : nat) (s : str)
  : N * nat * str :=
  match s with
  | c :: t =>
      match digit_of radix c with
      | Some d => read_digits radix (radix * acc + d) (S k) t
      | None => (acc, k, s)
      end
  | [] => (acc, k, [])
  end.

Definition read_sign (s : str) : bool * str :=
  match s with
  | 45 :: t => (true, t)
  | 43 :: t => (false, t)
  | _ => (false, s)
  end.

Fixpoint starts_with (p s : str) : bool :=
  match p, s with
  | [], _ => true
  | a :: p', b :: s' => (a =? b) && starts_with p' s'
  | _ :: _, [] => false
  end.

Definition signed (neg : bool) (q : Q) : Q := if neg then (- q)%Q else q.

(** The longest prefix of [s] that is a StrDecimalLiteral, with the value
    it denotes and what follows it. *)
Definition read_decimal (s : str) : option (num * str) :=
  let '(neg, s1) := read_sign s in
  if starts_with (lit "Infinity") s1
  then Some (if neg then NInf else PInf, drop 8 s1)
  else
    let '(ip, ni, s2) := read_digits 10 0 0%nat s1 in
    let '(mant, nf, s3) :=
      match s2 with
      | 46 :: t => read_digits 10 ip 0%nat t
      | _ => (ip, 0%nat, s2)
      end in
    match (ni + nf)%nat with
    | O => None
    | _ =>
        let '(ex, s4) :=
          match s3 with
          | c :: t =>
              if (c =? 101) || (c =? 69) then
                let '(eneg, t1) := read_sign t in
                let '(ev, ne, t2) := read_digits 10 0 0%nat t1 in
                match ne with
                | O => (0%Z, s3)
                | _ => (if eneg then (- Z.of_N ev)%Z else Z.of_N ev, t2)
                end
              else (0%Z, s3)
          | [] => (0%Z, s3)
          end in
        let q := (inject_Z (Z.of_N mant)
                  * Qpower (10 # 1) (ex - Z.of_nat nf))%Q in
        Some (Fin (Qred (signed neg q)), s4)
    end.

(** [0x], [0o] and [0b] literals, which [Number] reads and [parseFloat]
    does not. *)
Definition read_nondecimal (s : str) : option num :=
  match s with
  | 48 :: p :: t =>
      let radix :=
        if (p =? 120) || (p =? 88) then Some 16
        else if (p =? 111) || (p =? 79) then Some 8
        else if (p =? 98) || (p =? 66) then Some 2
        else None in
      match radix with
      | Some r =>
          match read_digits r 0 0%nat t with
          | (v, S _, []) => Some (of_Z (Z.of_N v))
          | _ => None
          end
      | None => None
      end
  | _ => None
  end.

(** StringToNumber *)
Definition StringToNumber (s : str) : num :=
  match trim s with
  | [] => of_Z 0
  | t =>
      match read_nondecimal t with
      | Some n => n
      | None =>
          match read_decimal t with
          | Some (n, []) => n
          | _ => NaN
          end
      end
  end.

(** [Number(v)] *)
Definition ToNumber (v : val) : num :=
  match v with
  | VUndef => NaN
  | VNull => of_Z 0
  | VBool b => of_Z (if b then 1 else 0)
  | VNum n => n
  | VStr s => StringToNumber s
  end.

(** *** Printing *)

Fixpoint uint_units (d : Decimal.uint) : str :=
  match d with
  | Decimal.Nil => []
  | Decimal.D0 d => 48 :: uint_units d
  | Decimal.D1 d => 49 :: uint_units d
  | Decimal.D2 d => 50 :: uint_units d
  | Decimal.D3 d => 51 :: uint_units d
  | Decimal.D4 d => 52 :: uint_units d
  | Decimal.D5 d => 53 :: uint_units d
  | Decimal.D6 d => 54 :: uint_units d
  | Decimal.D7 d => 55 :: uint_units d
  | Decimal.D8 d => 56 :: uint_units d
  | Decimal.D9 d => 57 :: uint_units d
  end.

Definition N_units (n : N) : str := uint_units (N.to_uint n).

(** The first [k] digits of the fraction [r / d], for [r < d]. *)
Fixpoint frac_units (k : nat) (r d : N) : str :=
  match k with
  | O => []
  | S k' =>
      if r =? 0 then []
      else (48 + (10 * r) / d) :: frac_units k' ((10 * r) mod d) d
  end.

(** Number::toString.  An integer below 10^21 prints as its digits, which
    is all the pincode test can match.  Any other finite value prints in
    JavaScript with a fraction point or an exponent, by digits that
    depend on binary64; here it prints as its integer part, a point and
    up to twenty digits of its fraction. *)
Definition Number_toString (n : num) : str :=
  match n with
  | NaN => lit "NaN"
  | PInf => lit "Infinity"
  | NInf => lit "-Infinity"
  | Fin q =>
      let a := Z.abs_N (Qnum q) in
      let d := Npos (Qden q) in
      let sign := if (Qnum q <? 0)%Z then [45] else [] in
      if (a mod d =? 0) && (a / d <? 10 ^ 21)
      then (if a =? 0 then [] else sign) ++ N_units (a / d)
      else sign ++ N_units (a / d) ++ 46 :: frac_units 20 (a mod d) d
  end.

(** [String(v)] *)
Definition ToString (v : val) : str :=
  match v with
  | VUndef => lit "undefined"
  | VNull => lit "null"
  | VBool true => lit "true"
  | VBool false => lit "false"
  | VNum n => Number_toString n
  | VStr s => s
  end.

(** [parseFloat(v)]: the longest decimal literal at the head of
    [String(v)], leading white space apart.  The digits [String] prints
    for a number parse back to that number. *)
Definition parseFloat (v : val) : num :=
  match v with
  | VNum n => n
  | _ =>
      match read_decimal (trimStart (ToString v)) with
      | Some (n, _) => n
      | None => NaN
      end
  end.

(** [/^\d{4,8}$/.test(s)]: four to eight characters and each a digit
    [0]..[9]; without the [m] flag [$] is the end of the input. *)
Definition pin_re_test (s : str) : bool :=
  (4 <=? length s)%nat && (length s <=? 8)%nat && forallb is_digit s.

End Js.


(** ** HMAC-SHA256, as [crypto.createHmac('sha256', key)] computes it *)

Module Sha256.

Definition w32 (x : N) : N := x mod 2 ^ 32.

Definition rotr (k x : N) : N :=
  N.lor (N.shiftr x k) (w32 (N.shiftl x (32 - k))).

Definition xor3 (a b c : N) : N := N.lxor (N.lxor a b) c.

Definition Ch (e f g : N) : N :=
  N.lxor (N.land e f) (N.land (N.lxor e 0xffffffff) g).

Definition Maj (a b c : N) : N :=
  xor3 (N.land a b) (N.land a c) (N.land b c).

Definition Sigma0 (a : N) : N := xor3 (rotr 2 a) (rotr 13 a) (rotr 22 a).
Definition Sigma1 (e : N) : N := xor3 (rotr 6 e) (rotr 11 e) (rotr 25 e).
Definition sigma0 (x : N) : N := xor3 (rotr 7 x) (rotr 18 x) (N.shiftr x 3).
Definition sigma1 (x : N) : N := xor3 (rotr 17 x) (rotr 19 x) (N.shiftr x 10).

(** The constants are taken from the primes, as the standard defines
    them: a round constant is the first 32 bits of the fraction of the
    cube root of a prime, an initial hash word those of its square root. *)
Definition primes : list N :=
  [ 2; 3; 5; 7; 11; 13; 17; 19; 23; 29; 31; 37; 41; 43; 47; 53;
    59; 61; 67; 71; 73; 79; 83; 89; 97; 101; 103; 107; 109; 113; 127; 131;
    137; 139; 149; 151; 157; 163; 167; 173; 179; 181; 191; 193; 197; 199;
    211; 223; 227; 229; 233; 239; 241; 251; 257; 263; 269; 271; 277; 281;
    283; 293; 307; 311 ].

(** The largest [r + d] with [d < 2 ^ bits] whose cube is at most [n] *)
Fixpoint cube_root (bits : nat) (n r : N) : N :=
  match bits with
  | O => r
  | S b =>
      let c := r + 2 ^ N.of_nat b in
      cube_root b n (if c * c * c <=? n then c else r)
  end.

Definition K : list N :=
  List.map (fun p => w32 (cube_root 36 (p * 2 ^ 96) 0)) primes.

Definition H0 : list N :=
  List.map (fun p => w32 (N.sqrt (p * 2 ^ 64))) (take 8 primes).

(** Big-endian words of a run of bytes, four bytes a word. *)
Fixpoint words_of (bs : list N) : list N :=
  match bs with
  | b0 :: b1 :: b2 :: b3 :: t =>
      (N.shiftl b0 24 + N.shiftl b1 16 + N.shiftl b2 8 + b3) :: words_of t
  | _ => []
  end.

Definition bytes_of (x : N) : list N :=
  [ N.shiftr x 24 mod 256; N.shiftr x 16 mod 256;
    N.shiftr x 8 mod 256; x mod 256 ].

(** The schedule, newest word first: [W t] from the sixteen before it. *)
Fixpoint extend (n : nat) (ws : list N) : list N :=
  match n with
  | O => ws
  | S n' =>
      let w :=
        w32 (sigma1 (nth 1 ws 0) + nth 6 ws 0
             + sigma0 (nth 14 ws 0) + nth 15 ws 0) in
      extend n' (w :: ws)
  end.

Definition schedule (block : list N) : list N :=
  rev (extend 48 (rev (words_of block))).

Definition round (st : list N) (kw : N * N) : list N :=
  match st with
  | [a; b; c; d; e; f; g; h] =>
      let t1 := w32 (h + Sigma1 e + Ch e f g + fst kw + snd kw) in
      let t2 := w32 (Sigma0 a + Maj a b c) in
      [w32 (t1 + t2); a; b; c; w32 (d + t1); e; f; g]
  | _ => st
  end.

Fixpoint zip (xs ys : list N) : list (N * N) :=
  match xs, ys with
  | x :: xs', y :: ys' => (x, y) :: zip xs' ys'
  | _, _ => []
  end.

Definition compress (h : list N) (block : list N) : list N :=
  let st := fold_left round (zip K (schedule block)) h in
  List.map (fun p => w32 (fst p + snd p)) (zip h st).

(** The message, a 1 bit, zeros up to 56 modulo 64, the bit length on
    eight bytes. *)
Definition pad (msg : list N) : list N :=
  let len := N.of_nat (length msg) in
  let zeros := N.to_nat ((64 - (len + 9) mod 64) mod 64) in
  let bits := 8 * len in
  msg ++ 0x80 :: repeat 0 zeros
      ++ bytes_of (N.shiftr bits 32 mod 2 ^ 32) ++ bytes_of (bits mod 2 ^ 32).

Fixpoint blocks (n : nat) (bs : list N) : list (list N) :=
  match n with
  | O => []
  | S n' => take 64 bs :: blocks n' (drop 64 bs)
  end.

Definition digest (msg : list N) : list N :=
  let p := pad msg in
  concat (List.map bytes_of
            (fold_left compress (blocks (length p / 64) p) H0)).

Definition block_key (key : list N) : list N :=
  let k := if (64 <? length key)%nat then digest key else key in
  k ++ repeat 0 (64 - length k)%nat.

Definition hmac (key msg : list N) : list N :=
  let k := block_key key in
  digest (List.map (N.lxor 0x5c) k
          ++ digest (List.map (N.lxor 0x36) k ++ msg)).

Definition hex_digit (d : N) : N := if d <? 10 then 48 + d else 87 + d.

(** [digest('hex')] *)
Definition hex (bs : list N) : Js.str :=
  concat (List.map (fun b => [hex_digit (b / 16); hex_digit (b mod 16)]) bs).

(** The UTF-8 bytes Node hashes for a string: a surrogate pair is one
    code point on four bytes, a surrogate that has no partner is encoded
    as U+FFFD. *)
Fixpoint utf8 (s : Js.str) : list N :=
  match s with
  | [] => []
  | c :: t =>
      if c <? 0x80 then c :: utf8 t
      else if c <? 0x800 then
        (0xc0 + c / 64) :: (0x80 + c mod 64) :: utf8 t
      else if (0xd800 <=? c) && (c <? 0xdc00) then
        match t with
        | l :: t' =>
            if (0xdc00 <=? l) && (l <? 0xe000) then
              let cp := 0x10000 + (c - 0xd800) * 1024 + (l - 0xdc00) in
              (0xf0 + cp / 262144) :: (0x80 + cp / 4096 mod 64)
              :: (0x80 + cp / 64 mod 64) :: (0x80 + cp mod 64) :: utf8 t'
            else 0xef :: 0xbf :: 0xbd :: utf8 t
        | [] => [0xef; 0xbf; 0xbd]
        end
      else if (0xdc00 <=? c) && (c <? 0xe000) then
        0xef :: 0xbf :: 0xbd :: utf8 t
      else
        (0xe0 + c / 4096) :: (0x80 + c / 64 mod 64) :: (0x80 + c mod 64)
        :: utf8 t
  end.

(** [crypto.createHmac('sha256', key).update(msg).digest('hex')] *)
Definition createHmac_sha256_hex (key msg : Js.str) : Js.str :=
  hex (hmac (utf8 key) (utf8 msg)).

End Sha256.

Import Js.

(** ** Documents and request bodies *)

(** Modelled from the spec: [models/Product] is not among the sources.
    A product has a title, a flat [stock] count, the flag
    [trackInventoryBySize] and the sequence [sizeInventory] of
    [{code, qty}] entries ([None] when the field holds no array).  The
    collection maps a product's identifier to its document. *)
Module SizeEntry.
Record t : Type := mk { code : str; qty : num }.
End SizeEntry.

Module Product.
Record t : Type := mk
  { title : str;
    stock : num;
    trackInventoryBySize : bool;
    sizeInventory : option (list SizeEntry.t) }.
End Product.

(** A line item of a request: [null] or [undefined], on which a property
    access throws, or a value with the five properties the routes read
    (each [VUndef] on a value that has none of them, such as a number). *)
Module Item.
Record obj : Type := mk
  { id : val; productId : val; size : val; qty : val; title : val }.
Inductive t : Type :=
| Nullish
| Obj (o : obj).
End Item.

(** [req.user], as the authentication middleware leaves it. *)
Module User.
Record t : Type := mk
  { _id : val; name : val; phone : val; address1 : val;
    city : val; state : val; pincode : val }.
End User.

(** Modelled from the spec: [models/Order] is not among the sources.
    An order record holds the fields its constructor is given, and
    [save] appends it to the collection. *)
Module Order.
Record upi_t : Type := mk_upi { txnId : str; payerName : val }.
Record t : Type := mk
  { userId : val; name : val; phone : val; address : val;
    city : val; state : val; pincode : val; paymentMethod : val;
    items : list Item.t; total : val; status : str;
    upi : option upi_t }.
End Order.

(** The local state: the product collection and the order collection. *)
Record World : Type := mkWorld
  { products : gmap str Product.t;
    orders : list Order.t }.

(** *** The gateway and its configuration *)

(** [settings.razorpay] of the settings record *)
Record RazorpayConfig : Type := mkConfig { keyId : val; keySecret : val }.

(** What [new Razorpay] is given *)
Record Razorpay : Type := mkRazorpay { key_id : val; key_secret : val }.

(** The argument of [rzp.orders.create], the receipt (a time stamp)
    apart, and what the call does: it throws, or it returns a value that
    is null or an object with an [id] and a [currency]. *)
Record CreateArgs : Type := mkArgs
  { arg_amount : num; arg_currency : val;
    notes_items : str; notes_appliedCoupon : val }.

Record RemoteOrder : Type := mkRemote { remote_id : val; remote_currency : val }.

Inductive Remote : Type :=
| RemoteThrows
| RemoteReturns (r : option RemoteOrder).

(** The process environment, the settings record ([None] when there is
    no record or it has no [razorpay] field) and the provider. *)
Record Env : Type := mkEnv
  { RAZORPAY_KEY_ID : option str;
    RAZORPAY_KEY_SECRET : option str;
    siteSetting : option RazorpayConfig;
    orders_create : Razorpay -> CreateArgs -> Remote }.

(** A variable of [process.env] as a value *)
Definition env_val (x : option str) : val :=
  match x with Some s => VStr s | None => VUndef end.

(** *** Responses *)

Inductive Body : Type :=
| Failure (message : str)
| Caught (fallback : str)
| OutOfStock (message : str) (itemId : val) (availableQty : num)
| OrderCreated (orderId : val) (amount : num) (currency : val) (keyId : val)
| Verified (message : str) (order : option Order.t)
           (razorpayPaymentId razorpayOrderId : str)
| ManualAccepted (order : Order.t) (message : str).

Record Response : Type := mkResponse { status : nat; body : Body }.

(** [res.status(c).json({ ok: false, message })] *)
Definition fail (c : nat) (m : string) : Response :=
  mkResponse c (Failure (lit m)).

(** [res.json(b)] *)
Definition json (b : Body) : Response := mkResponse 200 b.

(** The [catch] of a handler: [{ ok: false, message: error?.message ||
    fallback }] with status 500. *)
Definition caught (fallback : string) : Response :=
  mkResponse 500 (Caught (lit fallback)).

Definition ok (r : Response) : bool :=
  match body r with
  | OrderCreated _ _ _ _ | Verified _ _ _ _ | ManualAccepted _ _ => true
  | _ => false
  end.

(** ** [getRazorpayInstance] *)

(** [None] stands for the thrown "Razorpay is not configured". *)
Definition getRazorpayInstance (e : Env) : option Razorpay :=
  let razorpayConfig :=
    match siteSetting e with
    | Some c => c
    | None => mkConfig VUndef VUndef
    end in
  let keyId := or (env_val (RAZORPAY_KEY_ID e)) (keyId razorpayConfig) in
  let keySecret :=
    or (env_val (RAZORPAY_KEY_SECRET e)) (keySecret razorpayConfig) in
  if negb (truthy keyId) || negb (truthy keySecret) then None
  else Some (mkRazorpay keyId keySecret).

(** ** POST /create-order *)

Module CreateOrder.
Record body : Type := mk
  { amount : val; currency : val; items : option (list Item.t);
    appliedCoupon_code : val }.
End CreateOrder.

(** [items.map(i => `${i.title} x${i.qty}`).join(', ')]; [None] when an
    item is null or undefined and the property access throws. *)
Fixpoint notes_of (items : list Item.t) : option str :=
  match items with
  | [] => Some []
  | Item.Nullish :: _ => None
  | Item.Obj o :: rest =>
      match notes_of rest with
      | None => None
      | Some tail =>
          let one := ToString (Item.title o) ++ lit " x" ++ ToString (Item.qty o) in
          Some (match rest with [] => one | _ => one ++ lit ", " ++ tail end)
      end
  end.

(** The [try] around [rzp.orders.create]: building the notes throws on
    an item that is null or undefined, and so may the call. *)
Definition remote_call (e : Env) (rzp : Razorpay) (amountInPaise : num)
  (b : CreateOrder.body) (items : list Item.t) : Remote :=
  match notes_of items with
  | None => RemoteThrows
  | Some notes =>
      orders_create e rzp
        (mkArgs amountInPaise
           (or (CreateOrder.currency b) (VStr (lit "INR")))
           notes
           (or (CreateOrder.appliedCoupon_code b) (VStr (lit "none"))))
  end.

Definition create_order (e : Env) (w : World) (b : CreateOrder.body)
  : Response * World :=
  let parsedAmount := parseFloat (CreateOrder.amount b) in
  if negb (Number_isFinite parsedAmount) || le parsedAmount (of_Z 0)
  then (fail 400 "Invalid amount provided", w)
  else
    match CreateOrder.items b with
    | None | Some [] => (fail 400 "No items in order", w)
    | Some items =>
        match getRazorpayInstance e with
        | None =>
            (fail 500 "Razorpay is not properly configured on the server", w)
        | Some rzp =>
            let amountInPaise := Math_round parsedAmount in
            if le amountInPaise (of_Z 0)
            then (fail 400 "Amount must be greater than zero", w)
            else
              match remote_call e rzp amountInPaise b items with
              | RemoteThrows =>
                  (fail 502 "Failed to create order with payment provider", w)
              | RemoteReturns None =>
                  (fail 502 "Invalid response from payment provider", w)
              | RemoteReturns (Some razorpayOrder) =>
                  if negb (truthy (remote_id razorpayOrder))
                  then (fail 502 "Invalid response from payment provider", w)
                  else
                    let keyId := env_val (RAZORPAY_KEY_ID e) in
                    if negb (truthy keyId)
                    then (fail 500 "Payment gateway configuration incomplete", w)
                    else
                      (json (OrderCreated (remote_id razorpayOrder)
                               amountInPaise
                               (or (remote_currency razorpayOrder)
                                   (VStr (lit "INR")))
                               keyId), w)
              end
        end
    end.

(** ** The inventory loop of /verify and /manual *)

(** Modelled from the spec: [Product.findById] of the absent model; it
    resolves an identifier to the product stored under it, and to null
    when there is none. *)
Definition findById (ps : gmap str Product.t) (productId : val)
  : option (str * Product.t) :=
  match productId with
  | VStr k => (fun p => (k, p)) <$> ps !! k
  | _ => None
  end.

(** Modelled from the spec: [product.save()] of the absent model; it
    stores the document under its identifier. *)
Definition save (ps : gmap str Product.t) (k : str) (p : Product.t)
  : gmap str Product.t :=
  <[k := p]> ps.

(** [l.findIndex(f)], [None] for -1 *)
Fixpoint findIndex {A : Type} (f : A -> bool) (l : list A) : option nat :=
  match l with
  | [] => None
  | x :: t => if f x then Some 0%nat else S <$> findIndex f t
  end.

(** [c === v] for a string [c] *)
Definition strict_eq_str (c : str) (v : val) : bool :=
  match v with VStr s => str_eqb c s | _ => false end.

(** [Number(item.qty || 1)] *)
Definition requestedQty (o : Item.obj) : num :=
  ToNumber (or (Item.qty o) (VNum (of_Z 1))).

(** [product.stock || 0] *)
Definition currentStock (p : Product.t) : num :=
  match or (VNum (Product.stock p)) (VNum (of_Z 0)) with
  | VNum n => n
  | _ => of_Z 0
  end.

(** What one turn of the loop does: it goes on to the next item with the
    collection it leaves, it answers the request, or it throws. *)
Inductive Step : Type :=
| Next (ps : gmap str Product.t)
| Answer (r : Response)
| Throw.

Definition decrement_item (ps : gmap str Product.t) (item : Item.t) : Step :=
  match item with
  | Item.Nullish => Throw
  | Item.Obj o =>
      let productId := or (Item.id o) (Item.productId o) in
      if truthy productId then
        match findById ps productId with
        | None => Next ps
        | Some (k, product) =>
            (* the [if] needs the flag, a size and an array; [_, _] is
               its [else] *)
            match Product.trackInventoryBySize product && truthy (Item.size o),
                  Product.sizeInventory product with
            | true, Some sizes =>
                match findIndex
                        (fun s => strict_eq_str (SizeEntry.code s) (Item.size o))
                        sizes with
                | None => Next ps
                | Some sizeIdx =>
                    match sizes !! sizeIdx with
                    | None => Throw
                    | Some entry =>
                        let currentQty := SizeEntry.qty entry in
                        if lt currentQty (requestedQty o) then
                          Answer (mkResponse 409
                            (OutOfStock
                               (lit "Insufficient stock for "
                                  ++ Product.title product
                                  ++ lit " size " ++ ToString (Item.size o))
                               productId currentQty))
                        else
                          let entry' :=
                            SizeEntry.mk (SizeEntry.code entry)
                              (sub (SizeEntry.qty entry) (requestedQty o)) in
                          Next (save ps k
                                  (Product.mk (Product.title product)
                                     (Product.stock product)
                                     (Product.trackInventoryBySize product)
                                     (Some (<[sizeIdx := entry']> sizes))))
                    end
                end
            | _, _ =>
                if negb (Product.trackInventoryBySize product) then
                  if lt (currentStock product) (requestedQty o) then
                    Answer (mkResponse 409
                      (OutOfStock
                         (lit "Insufficient stock for " ++ Product.title product)
                         productId (currentStock product)))
                  else
                    Next (save ps k
                            (Product.mk (Product.title product)
                               (sub (Product.stock product) (requestedQty o))
                               (Product.trackInventoryBySize product)
                               (Product.sizeInventory product)))
                else Next ps
            end
        end
      else Next ps
  end.

(** How the [for] loop over the items ends, and the collection it
    leaves: each [save] is persisted when it is made. *)
Inductive Loop : Type :=
| Completed
| Answered (r : Response)
| Thrown.

Fixpoint decrement_inventory (ps : gmap str Product.t) (items : list Item.t)
  : Loop * gmap str Product.t :=
  match items with
  | [] => (Completed, ps)
  | item :: rest =>
      match decrement_item ps item with
      | Next ps' => decrement_inventory ps' rest
      | Answer r => (Answered r, ps)
      | Throw => (Thrown, ps)
      end
  end.

(** ** POST /verify *)

Module Verify.
Record body : Type := mk
  { razorpayOrderId : val; razorpayPaymentId : val; razorpaySignature : val;
    items : option (list Item.t); total : val;
    name : val; phone : val; address : val;
    city : val; state : val; pincode : val }.
End Verify.

(** [!v || typeof v !== 'string' || !v.trim()] *)
Definition missing_or_invalid (v : val) : bool :=
  negb (truthy v)
  || match v with
     | VStr s => negb (truthy (VStr (trim s)))
     | _ => true
     end.

(** The string a value is, once it is known to be one. *)
Definition str_of (v : val) : str :=
  match v with VStr s => s | _ => [] end.

(** The secret /verify signs with: [getRazorpayInstance] must not throw
    and [process.env.RAZORPAY_KEY_SECRET] must be set. *)
Definition verify_keySecret (e : Env) : option str :=
  match getRazorpayInstance e with
  | None => None
  | Some _ =>
      match RAZORPAY_KEY_SECRET e with
      | Some s => if truthy (VStr s) then Some s else None
      | None => None
      end
  end.

(** The digest the signature is compared with *)
Definition generatedSignature (keySecret razorpayOrderId razorpayPaymentId : str)
  : str :=
  Sha256.createHmac_sha256_hex keySecret
    (razorpayOrderId ++ lit "|" ++ razorpayPaymentId).

(** The signature check of /verify, as a function of its four strings:
    [generatedSignature === razorpaySignature]. *)
Definition verifySignature
  (razorpayOrderId razorpayPaymentId razorpaySignature keySecret : str) : bool :=
  str_eqb (generatedSignature keySecret razorpayOrderId razorpayPaymentId)
          razorpaySignature.

(** [/^\d{4,8}$/.test(String(pincode))] *)
Definition pinOk (pincode : val) : bool := pin_re_test (ToString pincode).

(** The inventory loop of /verify and what follows it: the order with
    status paid, and the answer.  The confirmation mail that is sent
    after [order.save()] touches neither collection and its failure is
    only logged. *)
Definition verify_checkout (w : World) (user : User.t) (b : Verify.body)
  (razorpayOrderId razorpayPaymentId : str) (items : list Item.t)
  : Response * World :=
  match decrement_inventory (products w) items with
  | (Answered r, ps) => (r, mkWorld ps (orders w))
  | (Thrown, ps) =>
      (caught "Payment verification failed", mkWorld ps (orders w))
  | (Completed, ps) =>
      let order :=
        Order.mk (User._id user)
          (or (Verify.name b) (User.name user))
          (or (Verify.phone b) (User.phone user))
          (or (Verify.address b) (User.address1 user))
          (or (Verify.city b) (User.city user))
          (or (Verify.state b) (User.state user))
          (or (Verify.pincode b) (User.pincode user))
          (VStr (lit "Razorpay"))
          items
          (or (Verify.total b) (VNum (of_Z 0)))
          (lit "paid")
          None in
      (json (Verified (lit "Payment verified successfully")
               (Some order) razorpayPaymentId razorpayOrderId),
       mkWorld ps (orders w ++ [order]))
  end.

Definition verify (e : Env) (w : World) (user : User.t) (b : Verify.body)
  : Response * World :=
  if missing_or_invalid (Verify.razorpayOrderId b)
  then (fail 400 "Missing or invalid Razorpay order ID", w)
  else if missing_or_invalid (Verify.razorpayPaymentId b)
  then (fail 400 "Missing or invalid Razorpay payment ID", w)
  else if missing_or_invalid (Verify.razorpaySignature b)
  then (fail 400 "Missing or invalid payment signature", w)
  else
    match verify_keySecret e with
    | None => (fail 500 "Payment verification system not configured", w)
    | Some keySecret =>
        let razorpayOrderId := str_of (Verify.razorpayOrderId b) in
        let razorpayPaymentId := str_of (Verify.razorpayPaymentId b) in
        if negb (verifySignature razorpayOrderId razorpayPaymentId
                   (str_of (Verify.razorpaySignature b)) keySecret)
        then (fail 400 "Invalid payment signature", w)
        else
          match Verify.items b with
          | Some ((_ :: _) as items) =>
              if negb (truthy (Verify.city b)) || negb (truthy (Verify.state b))
                 || negb (truthy (Verify.pincode b))
              then (fail 400 "City, state, and pincode are required", w)
              else if negb (pinOk (Verify.pincode b))
              then (fail 400 "Invalid pincode", w)
              else
                verify_checkout w user b razorpayOrderId razorpayPaymentId items
          | _ =>
              (json (Verified (lit "Payment verified successfully")
                       None razorpayPaymentId razorpayOrderId), w)
          end
    end.

(** ** POST /manual *)

Module Manual.
Record body : Type := mk
  { transactionId : val; amount : val; paymentMethod : val;
    items : option (list Item.t);
    name : val; phone : val; address : val;
    city : val; state : val; pincode : val }.
End Manual.

(** The inventory loop of /manual and what follows it: the order with
    status pending and its [upi] record, and the answer. *)
Definition manual_checkout (w : World) (user : User.t) (b : Manual.body)
  (transactionId : str) (items : list Item.t) : Response * World :=
  match decrement_inventory (products w) items with
  | (Answered r, ps) => (r, mkWorld ps (orders w))
  | (Thrown, ps) =>
      (caught "Failed to process payment", mkWorld ps (orders w))
  | (Completed, ps) =>
      let order :=
        Order.mk (User._id user)
          (or (Manual.name b) (User.name user))
          (or (Manual.phone b) (User.phone user))
          (or (Manual.address b) (User.address1 user))
          (or (Manual.city b) (User.city user))
          (or (Manual.state b) (User.state user))
          (or (Manual.pincode b) (User.pincode user))
          (or (Manual.paymentMethod b) (VStr (lit "UPI")))
          items
          (Manual.amount b)
          (lit "pending")
          (Some (Order.mk_upi (trim transactionId)
                   (or (User.name user) (VStr [])))) in
      (json (ManualAccepted order
               (lit "Order created successfully. Your payment is pending verification.")),
       mkWorld ps (orders w ++ [order]))
  end.

Definition manual (w : World) (user : User.t) (b : Manual.body)
  : Response * World :=
  if negb (truthy (Manual.transactionId b))
  then (fail 400 "Transaction ID is required", w)
  else
    match Manual.transactionId b with
    | VStr transactionId =>
        if negb (truthy (VStr (trim transactionId)))
        then (fail 400 "Transaction ID is required", w)
        else
          match Manual.items b with
          | None | Some [] => (fail 400 "No items in order", w)
          | Some items =>
              if negb (truthy (Manual.city b)) || negb (truthy (Manual.state b))
                 || negb (truthy (Manual.pincode b))
              then (fail 400 "City, state, and pincode are required", w)
              else if negb (pinOk (Manual.pincode b))
              then (fail 400 "Invalid pincode", w)
              else
                manual_checkout w user b transactionId items
          end
    | _ =>
        (* [transactionId.trim] is not a function on a value that is not a
           string: the TypeError goes to the handler's [catch]. *)
        (caught "Failed to process payment", w)
    end.

Arguments lit : simpl never.
Arguments Sha256.createHmac_sha256_hex : simpl never.
Arguments decrement_item : simpl never.

(** ** Sample documents and requests *)

Module Sample.

Definition provider (_ : Razorpay) (a : CreateArgs) : Remote :=
  RemoteReturns (Some (mkRemote (VStr (lit "order_9")) (arg_currency a))).

(** Both keys in the process environment *)
Definition env : Env :=
  mkEnv (Some (lit "rzp_key")) (Some (lit "s3cret")) None provider.

(** Nothing configured *)
Definition env_bare : Env := mkEnv None None None provider.

Definition user : User.t :=
  User.mk (VStr (lit "u1")) (VStr (lit "Asha")) (VStr (lit "9000000000"))
    (VStr (lit "12 Lake Road")) (VStr (lit "Pune")) (VStr (lit "MH"))
    (VStr (lit "411001")).

Definition line (k : string) (size qty : val) : Item.t :=
  Item.Obj (Item.mk (VStr (lit k)) VUndef size qty (VStr (lit "item"))).

Definition flat (q : Z) : Product.t :=
  Product.mk (lit "Mug") (of_Z q) false None.

Definition sized (m l : Z) : Product.t :=
  Product.mk (lit "Shirt") (of_Z 0) true
    (Some [SizeEntry.mk (lit "M") (of_Z m); SizeEntry.mk (lit "L") (of_Z l)]).

Definition shop (q m l : Z) : World :=
  mkWorld (<[lit "P1" := flat q]> (<[lit "P2" := sized m l]> ∅)) [].

Definition order_body (amount : val) (items : option (list Item.t))
  : CreateOrder.body :=
  CreateOrder.mk amount VUndef items VUndef.

Definition oid : str := lit "order_9".
Definition pid : str := lit "pay_3".

Definition verify_body (sig : str) (items : option (list Item.t))
  (pincode : val) : Verify.body :=
  Verify.mk (VStr oid) (VStr pid) (VStr sig) items (VNum (of_Z 500))
    VUndef VUndef VUndef (VStr (lit "Pune")) (VStr (lit "MH")) pincode.

Definition manual_body (txn : val) (items : option (list Item.t))
  (pincode : val) : Manual.body :=
  Manual.mk txn (VNum (of_Z 500)) VUndef items
    VUndef VUndef VUndef (VStr (lit "Pune")) (VStr (lit "MH")) pincode.

(** The signature the provider issues for [oid] and [pid] under the
    secret of [env] *)
Definition sig : str := generatedSignature (lit "s3cret") oid pid.

End Sample.

(** ** Properties of requests and of the inventory *)

(** The amount of a /create-order body passes the first check. *)
Definition valid_amount (b : CreateOrder.body) : bool :=
  let parsedAmount := parseFloat (CreateOrder.amount b) in
  Number_isFinite parsedAmount && negb (le parsedAmount (of_Z 0)).

(** [amountInPaise] of /create-order *)
Definition amountInPaise (b : CreateOrder.body) : num :=
  Math_round (parseFloat (CreateOrder.amount b)).

(** A /verify request gets as far as the inventory loop, with [items]
    to go through and [keySecret] the secret its signature was checked
    with. *)
Definition verify_gates (e : Env) (b : Verify.body) (keySecret : str)
  (items : list Item.t) : Prop :=
  missing_or_invalid (Verify.razorpayOrderId b) = false
  /\ missing_or_invalid (Verify.razorpayPaymentId b) = false
  /\ missing_or_invalid (Verify.razorpaySignature b) = false
  /\ verify_keySecret e = Some keySecret
  /\ verifySignature (str_of (Verify.razorpayOrderId b))
       (str_of (Verify.razorpayPaymentId b))
       (str_of (Verify.razorpaySignature b)) keySecret = true
  /\ Verify.items b = Some items /\ items <> []
  /\ truthy (Verify.city b) = true /\ truthy (Verify.state b) = true
  /\ truthy (Verify.pincode b) = true
  /\ pinOk (Verify.pincode b) = true.

(** A /manual request gets as far as the inventory loop. *)
Definition manual_gates (b : Manual.body) (transactionId : str)
  (items : list Item.t) : Prop :=
  Manual.transactionId b = VStr transactionId
  /\ trim transactionId <> []
  /\ Manual.items b = Some items /\ items <> []
  /\ truthy (Manual.city b) = true /\ truthy (Manual.state b) = true
  /\ truthy (Manual.pincode b) = true
  /\ pinOk (Manual.pincode b) = true.

(** A line item asks for more than there is: of the flat stock of its
    product, or of the size it names; [r] is the answer the routes give. *)
Inductive Insufficient (ps : gmap str Product.t) : Item.t -> Response -> Prop :=
| insufficient_flat (o : Item.obj) (k : str) (p : Product.t) :
    truthy (or (Item.id o) (Item.productId o)) = true ->
    findById ps (or (Item.id o) (Item.productId o)) = Some (k, p) ->
    Product.trackInventoryBySize p = false ->
    lt (currentStock p) (requestedQty o) = true ->
    Insufficient ps (Item.Obj o)
      (mkResponse 409
         (OutOfStock (lit "Insufficient stock for " ++ Product.title p)
            (or (Item.id o) (Item.productId o)) (currentStock p)))
| insufficient_size (o : Item.obj) (k : str) (p : Product.t)
    (sizes : list SizeEntry.t) (i : nat) (entry : SizeEntry.t) (size : str) :
    truthy (or (Item.id o) (Item.productId o)) = true ->
    findById ps (or (Item.id o) (Item.productId o)) = Some (k, p) ->
    Product.trackInventoryBySize p = true ->
    Item.size o = VStr size -> size <> [] ->
    Product.sizeInventory p = Some sizes ->
    findIndex (fun s => strict_eq_str (SizeEntry.code s) (Item.size o)) sizes
      = Some i ->
    sizes !! i = Some entry ->
    lt (SizeEntry.qty entry) (requestedQty o) = true ->
    Insufficient ps (Item.Obj o)
      (mkResponse 409
         (OutOfStock
            (lit "Insufficient stock for " ++ Product.title p
               ++ lit " size " ++ size)
            (or (Item.id o) (Item.productId o)) (SizeEntry.qty entry))).

(** A quantity that is a non-negative integer *)
Definition nonneg_int (n : num) : Prop :=
  match n with
  | Fin q => exists z : Z, (0 <= z)%Z /\ (q == inject_Z z)%Q
  | _ => False
  end.

(** The Product invariant: the flat stock and every per-size quantity
    are non-negative integers. *)
Definition product_ok (p : Product.t) : Prop :=
  nonneg_int (Product.stock p)
  /\ forall sizes, Product.sizeInventory p = Some sizes ->
       Forall (fun s => nonneg_int (SizeEntry.qty s)) sizes.

Definition inventory_ok (ps : gmap str Product.t) : Prop :=
  map_Forall (fun _ p => product_ok p) ps.

(** Every line item asks for a whole number of units. *)
Definition integer_quantities (items : list Item.t) : Prop :=
  Forall (fun item =>
            match item with
            | Item.Obj o => is_integer (requestedQty o)
            | Item.Nullish => True
            end) items.

(** The items of a body, none when the field holds no array *)
Definition items_of (x : option (list Item.t)) : list Item.t :=
  match x with Some l => l | None => [] end.

(** ** What the loop and the routes leave *)

(** The product a line item refers to *)
Definition reference (item : Item.t) : val :=
  match item with
  | Item.Obj o => or (Item.id o) (Item.productId o)
  | Item.Nullish => VUndef
  end.

(** The size a line item names *)
Definition named_size (item : Item.t) : val :=
  match item with
  | Item.Obj o => Item.size o
  | Item.Nullish => VUndef
  end.

(** What the loop may change of a product: the quantity its tracking mode
    makes authoritative, and nothing else. *)
Definition same_shape (p p' : Product.t) : Prop :=
  Product.title p' = Product.title p
  /\ Product.trackInventoryBySize p' = Product.trackInventoryBySize p
  /\ fmap (M := option) (List.map SizeEntry.code) (Product.sizeInventory p')
     = fmap (M := option) (List.map SizeEntry.code) (Product.sizeInventory p)
  /\ (Product.trackInventoryBySize p = true -> Product.stock p' = Product.stock p)
  /\ (Product.trackInventoryBySize p = false ->
      Product.sizeInventory p' = Product.sizeInventory p).

(** The entries of code [c] stand where they stood, as they were. *)
Definition keeps_code (c : str) (sizes sizes' : list SizeEntry.t) : Prop :=
  length sizes' = length sizes
  /\ forall j e, sizes !! j = Some e -> SizeEntry.code e = c ->
       sizes' !! j = Some e.

Definition keeps_code_of (k c : str) (a b : gmap str Product.t) : Prop :=
  forall p sizes,
    a !! k = Some p -> Product.sizeInventory p = Some sizes ->
    exists p' sizes',
      b !! k = Some p' /\ Product.sizeInventory p' = Some sizes'
      /\ keeps_code c sizes sizes'.

(** The three things a turn of the loop can be for an item that is an
    object: a skip, a turn on a flat stock, a turn on the quantity of a
    size. *)
Definition flat_turn (ps : gmap str Product.t) (o : Item.obj)
  (k : str) (p : Product.t) : Step :=
  if lt (currentStock p) (requestedQty o)
  then Answer (mkResponse 409
         (OutOfStock (lit "Insufficient stock for " ++ Product.title p)
            (or (Item.id o) (Item.productId o)) (currentStock p)))
  else Next (save ps k
         (Product.mk (Product.title p)
            (sub (Product.stock p) (requestedQty o))
            (Product.trackInventoryBySize p) (Product.sizeInventory p))).

Definition size_turn (ps : gmap str Product.t) (o : Item.obj)
  (k : str) (p : Product.t) (sizes : list SizeEntry.t) (i : nat)
  (entry : SizeEntry.t) : Step :=
  if lt (SizeEntry.qty entry) (requestedQty o)
  then Answer (mkResponse 409
         (OutOfStock
            (lit "Insufficient stock for " ++ Product.title p
               ++ lit " size " ++ ToString (Item.size o))
            (or (Item.id o) (Item.productId o)) (SizeEntry.qty entry)))
  else Next (save ps k
         (Product.mk (Product.title p) (Product.stock p)
            (Product.trackInventoryBySize p)
            (Some (<[i := SizeEntry.mk (SizeEntry.code entry)
                            (sub (SizeEntry.qty entry) (requestedQty o))]>
                     sizes)))).

(** The order /verify builds *)
Definition verify_order (user : User.t) (b : Verify.body) (items : list Item.t)
  : Order.t :=
  Order.mk (User._id user)
    (or (Verify.name b) (User.name user))
    (or (Verify.phone b) (User.phone user))
    (or (Verify.address b) (User.address1 user))
    (or (Verify.city b) (User.city user))
    (or (Verify.state b) (User.state user))
    (or (Verify.pincode b) (User.pincode user))
    (VStr (lit "Razorpay")) items
    (or (Verify.total b) (VNum (of_Z 0)))
    (lit "paid") None.

(** The order /manual builds *)
Definition manual_order (user : User.t) (b : Manual.body)
  (transactionId : str) (items : list Item.t) : Order.t :=
  Order.mk (User._id user)
    (or (Manual.name b) (User.name user))
    (or (Manual.phone b) (User.phone user))
    (or (Manual.address b) (User.address1 user))
    (or (Manual.city b) (User.city user))
    (or (Manual.state b) (User.state user))
    (or (Manual.pincode b) (User.pincode user))
    (or (Manual.paymentMethod b) (VStr (lit "UPI"))) items
    (Manual.amount b) (lit "pending")
    (Some (Order.mk_upi (trim transactionId) (or (User.name user) (VStr [])))).

(** What a request leaves of a checkout: the answer and the world, by the
    way the loop ended. *)
Inductive Settled (w : World) (success : Response) (order : Order.t)
  (fallback : string) (items : list Item.t) : Response * World -> Prop :=
| settled_out_of_stock pre item rest ps1 r :
    items = pre ++ item :: rest ->
    decrement_inventory (products w) pre = (Completed, ps1) ->
    Insufficient ps1 item r ->
    Settled w success order fallback items (r, mkWorld ps1 (orders w))
| settled_thrown pre rest ps1 :
    items = pre ++ Item.Nullish :: rest ->
    decrement_inventory (products w) pre = (Completed, ps1) ->
    Settled w success order fallback items
      (caught fallback, mkWorld ps1 (orders w))
| settled_recorded ps1 :
    decrement_inventory (products w) items = (Completed, ps1) ->
    Settled w success order fallback items
      (success, mkWorld ps1 (orders w ++ [order])).

(** The order a response carries *)
Definition recorded (r : Response) : option Order.t :=
  match body r with
  | Verified _ order _ _ => order
  | ManualAccepted order _ => Some order
  | _ => None
  end.

(** A line item refers to no product of the collection. *)
Definition unresolved (ps : gmap str Product.t) (item : Item.t) : Prop :=
  exists o, item = Item.Obj o
    /\ (truthy (or (Item.id o) (Item.productId o)) = false
        \/ findById ps (or (Item.id o) (Item.productId o)) = None).

(** A line item for [n] units, a number other than 0, of product [k] *)
Definition line_for (item : Item.t) (k : str) (n : Z) : Prop :=
  exists o, item = Item.Obj o
    /\ or (Item.id o) (Item.productId o) = VStr k /\ k <> []
    /\ Item.qty o = VNum (of_Z n) /\ n <> 0%Z.

(** The units the lines ask of product [k] *)
Fixpoint units_of (k : str) (lines : list (str * Z)) : Z :=
  match lines with
  | [] => 0
  | (k', n) :: rest => (if decide (k' = k) then n else 0) + units_of k rest
  end%Z.

(** Every product keeps a flat stock that is an integer. *)
Definition flat_stocks (ps : gmap str Product.t) : Prop :=
  forall k p, ps !! k = Some p ->
    Product.trackInventoryBySize p = false
    /\ exists q : Z, Product.stock p = of_Z q.

(** A string of white space only, the empty one among them *)
Definition blank (s : str) : bool := forallb is_ws s.

(** ** Printed numbers and digests *)

(** A character that can go on a decimal literal after its digits: a
    digit, the point, or the mark of an exponent *)
Definition continues_number (c : N) : bool :=
  is_digit c || (c =? 46) || (c =? 101) || (c =? 69).

(** What follows the digits of an amount does not go on the number. *)
Definition ends_number (rest : str) : Prop :=
  match rest with
  | [] => True
  | c :: _ => continues_number c = false
  end.

(** The value of a run of printed digits, read after [acc] *)
Fixpoint uint_val (acc : N) (d : Decimal.uint) : N :=
  match d with
  | Decimal.Nil => acc
  | Decimal.D0 d => uint_val (10 * acc) d
  | Decimal.D1 d => uint_val (10 * acc + 1) d
  | Decimal.D2 d => uint_val (10 * acc + 2) d
  | Decimal.D3 d => uint_val (10 * acc + 3) d
  | Decimal.D4 d => uint_val (10 * acc + 4) d
  | Decimal.D5 d => uint_val (10 * acc + 5) d
  | Decimal.D6 d => uint_val (10 * acc + 6) d
  | Decimal.D7 d => uint_val (10 * acc + 7) d
  | Decimal.D8 d => uint_val (10 * acc + 8) d
  | Decimal.D9 d => uint_val (10 * acc + 9) d
  end.

(** A digit [0]..[9] or a letter [a]..[f] *)
Definition is_lower_hex (c : N) : bool :=
  ((48 <=? c) && (c <=? 57)) || ((97 <=? c) && (c <=? 102)).

(** ** The origin check of [server/index.js] *)

Module Cors.

(** A string of code units below 256, as the value of a request header
    is: Node decodes the bytes of a header as Latin-1. *)
Definition latin1 (s : str) : bool := forallb (fun c => c <? 256) s.

(** The lower case of a code unit below 256: [A]..[Z] and the capitals
    U+00C0..U+00DE, the sign U+00D7 apart, move up by 32. *)
Definition lower_unit (c : N) : N :=
  if ((65 <=? c) && (c <=? 90))
     || ((192 <=? c) && (c <=? 222) && negb (c =? 215))
  then c + 32 else c.

(** [s.toLowerCase()] on a Latin-1 string *)
Definition toLowerCase (s : str) : str := List.map lower_unit s.

(** [s.includes(sub)] *)
Fixpoint includes (s sub : str) : bool :=
  starts_with sub s
  || match s with
     | [] => false
     | _ :: t => includes t sub
     end.

(** [s.endsWith(suffix)] *)
Definition endsWith (s suffix : str) : bool :=
  starts_with (rev suffix) (rev s).

(** [[a-z0-9\-]] *)
Definition is_label_unit (c : N) : bool :=
  ((97 <=? c) && (c <=? 122)) || is_digit c || (c =? 45).

(** The longest run of label characters at the head of [s], and the rest *)
Fixpoint span_label (s : str) : str * str :=
  match s with
  | c :: t =>
      if is_label_unit c
      then let '(l, r) := span_label t in (c :: l, r)
      else ([], s)
  | [] => ([], [])
  end.

Definition endings : list str :=
  [lit ".name"; lit ".net"; lit ".dev"; lit ".io"; lit ".app"].

(** [/^https:\/\/[a-z0-9\-]+\.(name|net|dev|io|app)$/.test(o)]: after
    the scheme, a run of label characters that is not empty, then one of
    the five endings and the end of the input.  No label character is a
    point, so the run the pattern takes is the longest one. *)
Definition preview_re_test (o : str) : bool :=
  starts_with (lit "https://") o
  && (let '(label, rest) := span_label (drop 8 o) in
      match label with
      | [] => false
      | _ => bool_decide (rest ∈ endings)
      end).

(** The [origin] function given to [cors]: [true] for
    [callback(null, true)], [false] for the error "Not allowed by CORS".
    [origin] is the Origin header of the request, [None] when it has
    none, and [CLIENT_URL] the variable of the process environment. *)
Definition origin_allowed (CLIENT_URL : option str) (origin : option str)
  : bool :=
  match origin with
  | None | Some [] => true
  | Some origin =>
      let o := toLowerCase origin in
      if includes o (lit "localhost") || includes o (lit "127.0.0.1")
      then true
      else if truthy (env_val CLIENT_URL)
              && str_eqb o (toLowerCase (str_of (env_val CLIENT_URL)))
      then true
      else if endsWith o (lit ".fly.dev") || endsWith o (lit ".netlify.app")
      then true
      else if includes o (lit ".builder.my") || includes o (lit ".builder.codes")
              || includes o (lit ".builder.io")
              || includes o (lit "projects.builder.codes")
      then true
      else if preview_re_test o then true
      else false
  end.

(** The substrings that let an origin through wherever they stand in it,
    and the endings that do. *)
Definition marks : list str :=
  [lit "localhost"; lit "127.0.0.1"; lit ".builder.my";
   lit ".builder.codes"; lit ".builder.io"].

Definition suffixes : list str := [lit ".fly.dev"; lit ".netlify.app"].

End Cors.

(** Closed goals on sample data are settled by evaluation. *)
Ltac concrete := vm_compute; first [reflexivity | discriminate].

Ltac gates :=
  unfold verify_gates, manual_gates; repeat split; concrete.

(** ** Theorems *)

(** *** The hash on the vectors of the standards *)

Example sha256_abc :
  Sha256.hex (Sha256.digest (Sha256.utf8 (lit "abc")))
  = lit "ba7816bf8f01cfea414140de5dae2223b00361a396177a9cb410ff61f20015ad".
Proof. vm_compute. reflexivity. Qed.

Example sha256_two_blocks :
  Sha256.hex (Sha256.digest (Sha256.utf8
    (lit "abcdbcdecdefdefgefghfghighijhijkijkljklmklmnlmnomnopnopq")))
  = lit "248d6a61d20638b8e5c026930c3e6039a33ce45964ff2167f6ecedd419db06c1".
Proof. vm_compute. reflexivity. Qed.

Example hmac_sha256_rfc4231_2 :
  Sha256.createHmac_sha256_hex (lit "Jefe")
    (lit "what do ya want for nothing?")
  = lit "5bdcc146bf60754e6a042426089575c75a003f089d2739839dec58b964ec3843".
Proof. vm_compute. reflexivity. Qed.

Example utf8_units :
  Sha256.utf8 [0xe9; 0x20ac; 0xd83d; 0xde00; 0xd83d; 0x41]
  = [0xc3; 0xa9; 0xe2; 0x82; 0xac; 0xf0; 0x9f; 0x98; 0x80;
     0xef; 0xbf; 0xbd; 0x41].
Proof. reflexivity. Qed.

(** *** Arithmetic of the numbers *)

Lemma Qle_bool_false (x y : Q) : (y < x)%Q -> Qle_bool x y = false.
Proof.
  intros H. destruct (Qle_bool x y) eqn:E; [|reflexivity].
  apply Qle_bool_iff in E. exfalso. exact (Qlt_not_le _ _ H E).
Qed.

Lemma Qle_bool_true (x y : Q) : (x <= y)%Q -> Qle_bool x y = true.
Proof. intros H. now apply Qle_bool_iff. Qed.

Lemma Math_round_integer (q : Q) (z : Z) :
  (q == inject_Z z)%Q -> Math_round (Fin q) = of_Z z.
Proof.
  intros H. unfold Math_round, of_Z. do 2 f_equal.
  rewrite (Qfloor_comp _ (inject_Z z + (1 # 2))%Q) by now rewrite H.
  unfold Qfloor, Qplus, inject_Z. simpl.
  change (Z.pos (1 * 2)) with 2%Z.
  symmetry. apply Z.div_unique with (r := 1%Z); lia.
Qed.

Lemma Math_round_positive (q : Q) :
  (1 # 2 <= q)%Q -> le (Math_round (Fin q)) (of_Z 0) = false.
Proof.
  intros H. unfold Math_round, of_Z, le. apply Qle_bool_false.
  rewrite <- Zlt_Qlt.
  assert (1 <= Qfloor (q + (1 # 2)))%Z; [|lia].
  rewrite <- (Qfloor_Z 1). apply Qfloor_resp_le.
  apply Qle_trans with ((1 # 2) + (1 # 2))%Q; [discriminate|].
  now apply Qplus_le_l.
Qed.

Lemma truthy_VStr (s : str) : s <> [] -> truthy (VStr s) = true.
Proof. now destruct s. Qed.

(** *** POST /create-order *)

Lemma create_order_world (e : Env) (w : World) (b : CreateOrder.body) :
  snd (create_order e w b) = w.
Proof.
  unfold create_order.
  repeat match goal with
         | |- snd (if ?c then _ else _) = _ => destruct c
         | |- snd (match ?x with _ => _ end) = _ => destruct x
         end; reflexivity.
Qed.

(** Past its checks, /create-order answers by what the provider does. *)
Lemma create_order_remote (e : Env) (w : World) (b : CreateOrder.body)
  (rzp : Razorpay) (items : list Item.t) :
  valid_amount b = true ->
  CreateOrder.items b = Some items -> items <> [] ->
  getRazorpayInstance e = Some rzp ->
  le (amountInPaise b) (of_Z 0) = false ->
  create_order e w b =
    match remote_call e rzp (amountInPaise b) b items with
    | RemoteThrows =>
        (fail 502 "Failed to create order with payment provider", w)
    | RemoteReturns None =>
        (fail 502 "Invalid response from payment provider", w)
    | RemoteReturns (Some razorpayOrder) =>
        if negb (truthy (remote_id razorpayOrder))
        then (fail 502 "Invalid response from payment provider", w)
        else if negb (truthy (env_val (RAZORPAY_KEY_ID e)))
        then (fail 500 "Payment gateway configuration incomplete", w)
        else (json (OrderCreated (remote_id razorpayOrder) (amountInPaise b)
                      (or (remote_currency razorpayOrder) (VStr (lit "INR")))
                      (env_val (RAZORPAY_KEY_ID e))), w)
    end.
Proof.
  unfold valid_amount, amountInPaise, create_order.
  intros Ha Hi Hne Hc Hr.
  apply andb_true_iff in Ha as [Hf Hp]. apply negb_true_iff in Hp.
  rewrite Hf, Hp, Hi, Hc, Hr. destruct items; [easy|reflexivity].
Qed.

Lemma create_order_invalid_amount (e : Env) (w : World) (b : CreateOrder.body) :
  valid_amount b = false ->
  create_order e w b = (fail 400 "Invalid amount provided", w).
Proof.
  unfold valid_amount, create_order. intros Ha.
  apply andb_false_iff in Ha as [-> | Hp]; [reflexivity|].
  apply negb_false_iff in Hp. rewrite Hp, orb_true_r. reflexivity.
Qed.


(** C1, as the code has it: for a finite positive amount of at least one
    half, a non-empty item list, credentials that resolve with the key
    id set in the process environment, and a provider that answers the
    call with an order carrying an identifier, /create-order succeeds; it
    returns that identifier and the amount rounded to the nearest
    integer, which is the amount itself when the amount is an integer;
    nothing is scaled, and no collection changes. *)
Theorem create_order_returns_rounded_amount
  (e : Env) (w : World) (b : CreateOrder.body) (q : Q)
  (items : list Item.t) (rzp : Razorpay) (keyId : str)
  (razorpayOrder : RemoteOrder) :
  CreateOrder.amount b = VNum (Fin q) -> (1 # 2 <= q)%Q ->
  CreateOrder.items b = Some items -> items <> [] ->
  getRazorpayInstance e = Some rzp ->
  RAZORPAY_KEY_ID e = Some keyId -> keyId <> [] ->
  remote_call e rzp (Math_round (Fin q)) b items
    = RemoteReturns (Some razorpayOrder) ->
  truthy (remote_id razorpayOrder) = true ->
  create_order e w b =
    (json (OrderCreated (remote_id razorpayOrder) (Math_round (Fin q))
             (or (remote_currency razorpayOrder) (VStr (lit "INR")))
             (VStr keyId)), w)
  /\ forall z : Z, (q == inject_Z z)%Q -> Math_round (Fin q) = of_Z z.
Proof.
  intros Hamt Hq Hi Hne Hc Hk Hkne Hcall Hid.
  split; [|intros z Hz; now apply Math_round_integer].
  assert (Hamount : amountInPaise b = Math_round (Fin q)).
  { unfold amountInPaise. now rewrite Hamt. }
  rewrite (create_order_remote e w b rzp items); try assumption.
  - rewrite Hamount, Hcall, Hid, Hk. simpl env_val.
    now rewrite (truthy_VStr keyId Hkne).
  - unfold valid_amount. rewrite Hamt. simpl parseFloat. simpl Number_isFinite.
    unfold le, of_Z. rewrite Qle_bool_false; [reflexivity|].
    apply Qlt_le_trans with (1 # 2)%Q; [reflexivity|assumption].
  - rewrite Hamount. now apply Math_round_positive.
Qed.

Lemma create_order_returns_rounded_amount_witness :
  create_order Sample.env (Sample.shop 5 1 1)
    (Sample.order_body (VNum (of_Z 49900))
       (Some [Sample.line "P1" VUndef (VNum (of_Z 1))]))
  = (json (OrderCreated (VStr (lit "order_9")) (of_Z 49900)
             (VStr (lit "INR")) (VStr (lit "rzp_key"))), Sample.shop 5 1 1).
Proof.
  refine (proj1 (create_order_returns_rounded_amount Sample.env _ _
            (inject_Z 49900) [Sample.line "P1" VUndef (VNum (of_Z 1))]
            (mkRazorpay (VStr (lit "rzp_key")) (VStr (lit "s3cret")))
            (lit "rzp_key")
            (mkRemote (VStr (lit "order_9")) (VStr (lit "INR")))
            _ _ _ _ _ _ _ _ _));
    try reflexivity; try discriminate.
Defined.

(** C1 fails as worded: an amount of 2.5 comes back as 3, and a positive
    amount of 0.25 is refused with status 400. *)
Lemma create_order_rounds_the_amount :
  let items := Some [Sample.line "P1" VUndef (VNum (of_Z 1))] in
  create_order Sample.env (Sample.shop 5 1 1)
    (Sample.order_body (VNum (Fin (5 # 2))) items)
  = (json (OrderCreated (VStr (lit "order_9")) (Fin 3)
             (VStr (lit "INR")) (VStr (lit "rzp_key"))), Sample.shop 5 1 1)
  /\ ~ num_same (Fin 3) (Fin (5 # 2))
  /\ create_order Sample.env (Sample.shop 5 1 1)
       (Sample.order_body (VNum (Fin (1 # 4))) items)
     = (fail 400 "Amount must be greater than zero", Sample.shop 5 1 1).
Proof.
  split; [reflexivity|]. split; [|reflexivity].
  simpl. discriminate.
Qed.

(** *** The gates of /verify and /manual *)

Lemma verify_reaches_checkout (e : Env) (w : World) (user : User.t)
  (b : Verify.body) (keySecret : str) (items : list Item.t) :
  verify_gates e b keySecret items ->
  verify e w user b =
    verify_checkout w user b (str_of (Verify.razorpayOrderId b))
      (str_of (Verify.razorpayPaymentId b)) items.
Proof.
  intros (Ho & Hp & Hs & Hk & Hv & Hi & Hne & Hc & Hst & Hpin & Hok).
  unfold verify. rewrite Ho, Hp, Hs, Hk, Hv, Hi, Hc, Hst, Hpin, Hok.
  destruct items; [easy|reflexivity].
Qed.

Lemma manual_reaches_checkout (w : World) (user : User.t)
  (b : Manual.body) (transactionId : str) (items : list Item.t) :
  manual_gates b transactionId items ->
  manual w user b = manual_checkout w user b transactionId items.
Proof.
  intros (Ht & Hne & Hi & Hin & Hc & Hst & Hpin & Hok).
  unfold manual. rewrite Ht, Hi, Hc, Hst, Hpin, Hok.
  assert (Htr : truthy (VStr (trim transactionId)) = true)
    by (simpl; now destruct (trim transactionId)).
  assert (Hty : truthy (VStr transactionId) = true).
  { destruct transactionId; [|reflexivity]. now compute in Hne. }
  rewrite Hty, Htr. destruct items; [easy|reflexivity].
Qed.

(** *** The inventory loop *)

Lemma decrement_inventory_app (ps ps1 : gmap str Product.t)
  (pre rest : list Item.t) :
  decrement_inventory ps pre = (Completed, ps1) ->
  decrement_inventory ps (pre ++ rest) = decrement_inventory ps1 rest.
Proof.
  revert ps. induction pre as [|item pre IH]; intros ps H; simpl in *.
  - now inversion H.
  - destruct (decrement_item ps item); try discriminate. now apply IH.
Qed.

Lemma Insufficient_answer (ps : gmap str Product.t) (item : Item.t)
  (r : Response) :
  Insufficient ps item r -> decrement_item ps item = Answer r.
Proof.
  intros H. destruct H as [o k p Ht Hf Htr Hlt
                          |o k p sizes i entry size Ht Hf Htr Hsz Hne Hs Hi He Hlt];
    unfold decrement_item; rewrite Ht, Hf, Htr.
  - simpl andb. simpl negb.
    destruct (Product.sizeInventory p); now rewrite Hlt.
  - assert (Hts : truthy (Item.size o) = true)
      by (rewrite Hsz; now destruct size).
    rewrite Hts, Hs, Hi, He, Hlt, Hsz. reflexivity.
Qed.

Lemma Insufficient_status (ps : gmap str Product.t) (item : Item.t)
  (r : Response) :
  Insufficient ps item r -> status r = 409%nat.
Proof. now intros []. Qed.

(** C2: when the items before a line item went through the loop and that
    item asks for more than there is, /verify and /manual answer 409
    with a message naming the product (and the size, for a product
    tracked by size) and the quantity available, and the product
    collection is left as the earlier items' decrements made it; no
    order is recorded. *)
Theorem insufficient_stock_keeps_earlier_decrements
  (e : Env) (w : World) (user : User.t) (pre rest : list Item.t)
  (item : Item.t) (ps1 : gmap str Product.t) (r : Response) :
  decrement_inventory (products w) pre = (Completed, ps1) ->
  Insufficient ps1 item r ->
  status r = 409%nat
  /\ (forall b keySecret,
        verify_gates e b keySecret (pre ++ item :: rest) ->
        verify e w user b = (r, mkWorld ps1 (orders w)))
  /\ (forall b transactionId,
        manual_gates b transactionId (pre ++ item :: rest) ->
        manual w user b = (r, mkWorld ps1 (orders w))).
Proof.
  intros Hpre Hins.
  assert (Hloop : decrement_inventory (products w) (pre ++ item :: rest)
                  = (Answered r, ps1)).
  { rewrite (decrement_inventory_app _ ps1) by assumption.
    simpl. now rewrite (Insufficient_answer _ _ _ Hins). }
  split; [now apply (Insufficient_status ps1 item)|]. split.
  - intros b keySecret Hg.
    rewrite (verify_reaches_checkout _ _ _ _ _ _ Hg).
    unfold verify_checkout. now rewrite Hloop.
  - intros b transactionId Hg.
    rewrite (manual_reaches_checkout _ _ _ _ _ Hg).
    unfold manual_checkout. now rewrite Hloop.
Qed.

Lemma findIndex_none {A : Type} (f : A -> bool) (l : list A) :
  Forall (fun x => f x = false) l -> findIndex f l = None.
Proof.
  induction 1 as [|x l Hx _ IH]; [reflexivity|].
  simpl. now rewrite Hx, IH.
Qed.

Lemma strict_eq_str_false (c : str) (v : val) :
  VStr c <> v -> strict_eq_str c v = false.
Proof.
  intros H. destruct v; try reflexivity.
  unfold strict_eq_str, str_eqb. apply bool_decide_eq_false_2.
  intros ->. now apply H.
Qed.

(** C9: a line item for a product tracked by size that names no size, or
    a size that is the code of no entry of the product, changes nothing
    and raises nothing, and the loop goes on with the items after it,
    wherever in the list the item stands. *)
Theorem unmatched_size_is_skipped
  (ps : gmap str Product.t) (o : Item.obj) (k : str) (p : Product.t)
  (rest : list Item.t) :
  findById ps (or (Item.id o) (Item.productId o)) = Some (k, p) ->
  Product.trackInventoryBySize p = true ->
  truthy (Item.size o) = false
  \/ (forall sizes, Product.sizeInventory p = Some sizes ->
      Forall (fun s => VStr (SizeEntry.code s) <> Item.size o) sizes) ->
  decrement_item ps (Item.Obj o) = Next ps
  /\ decrement_inventory ps (Item.Obj o :: rest) = decrement_inventory ps rest
  /\ forall ps0 pre,
       decrement_inventory ps0 pre = (Completed, ps) ->
       decrement_inventory ps0 (pre ++ Item.Obj o :: rest)
       = decrement_inventory ps0 (pre ++ rest).
Proof.
  intros Hf Htr Hsize.
  assert (H : decrement_item ps (Item.Obj o) = Next ps).
  { unfold decrement_item. rewrite Hf, Htr.
    destruct (truthy (or (Item.id o) (Item.productId o))); [|reflexivity].
    destruct Hsize as [-> | Hno]; simpl andb.
    - now destruct (Product.sizeInventory p).
    - destruct (truthy (Item.size o)); [|now destruct (Product.sizeInventory p)].
      destruct (Product.sizeInventory p) as [sizes|]; [|reflexivity].
      rewrite findIndex_none; [reflexivity|].
      eapply Forall_impl; [exact (Hno sizes eq_refl)|].
      intros s Hs. now apply strict_eq_str_false. }
  assert (H1 : decrement_inventory ps (Item.Obj o :: rest)
               = decrement_inventory ps rest)
    by (simpl; now rewrite H).
  split; [exact H|]. split; [exact H1|].
  intros ps0 pre Hpre.
  rewrite !(decrement_inventory_app ps0 ps) by assumption. exact H1.
Qed.

(** C10: a line item whose [qty] is absent, zero or falsy in any other
    way asks for one unit: [requestedQty] is 1, a flat stock is compared
    with 1 and decremented by 1, and so is the quantity of a size. *)
Theorem falsy_qty_requests_one (o : Item.obj) :
  truthy (Item.qty o) = false ->
  requestedQty o = of_Z 1
  /\ (forall ps k p,
        truthy (or (Item.id o) (Item.productId o)) = true ->
        findById ps (or (Item.id o) (Item.productId o)) = Some (k, p) ->
        Product.trackInventoryBySize p = false ->
        decrement_item ps (Item.Obj o) =
          if lt (currentStock p) (of_Z 1)
          then Answer (mkResponse 409
                 (OutOfStock (lit "Insufficient stock for " ++ Product.title p)
                    (or (Item.id o) (Item.productId o)) (currentStock p)))
          else Next (save ps k
                 (Product.mk (Product.title p)
                    (sub (Product.stock p) (of_Z 1))
                    false (Product.sizeInventory p))))
  /\ (forall ps k p sizes i entry,
        truthy (or (Item.id o) (Item.productId o)) = true ->
        findById ps (or (Item.id o) (Item.productId o)) = Some (k, p) ->
        Product.trackInventoryBySize p = true ->
        truthy (Item.size o) = true ->
        Product.sizeInventory p = Some sizes ->
        findIndex (fun s => strict_eq_str (SizeEntry.code s) (Item.size o)) sizes
          = Some i ->
        sizes !! i = Some entry ->
        decrement_item ps (Item.Obj o) =
          if lt (SizeEntry.qty entry) (of_Z 1)
          then Answer (mkResponse 409
                 (OutOfStock
                    (lit "Insufficient stock for " ++ Product.title p
                       ++ lit " size " ++ ToString (Item.size o))
                    (or (Item.id o) (Item.productId o)) (SizeEntry.qty entry)))
          else Next (save ps k
                 (Product.mk (Product.title p) (Product.stock p) true
                    (Some (<[i := SizeEntry.mk (SizeEntry.code entry)
                                    (sub (SizeEntry.qty entry) (of_Z 1))]>
                             sizes))))).
Proof.
  intros Hq.
  assert (Hr : requestedQty o = of_Z 1)
    by (unfold requestedQty, or; now rewrite Hq).
  split; [exact Hr|]. split.
  - intros ps k p Ht Hf Htr. unfold decrement_item.
    rewrite Ht, Hf, Htr, Hr. simpl andb. simpl negb.
    now destruct (Product.sizeInventory p).
  - intros ps k p sizes i entry Ht Hf Htr Hts Hs Hi He. unfold decrement_item.
    rewrite Ht, Hf, Htr, Hts, Hs, Hi, He, Hr. reflexivity.
Qed.

(** *** Numbers that are integers *)

Lemma truthy_of_Z (z : Z) : truthy (VNum (of_Z z)) = negb (z =? 0)%Z.
Proof.
  unfold truthy, of_Z, Qeq_bool, inject_Z. simpl.
  rewrite Z.mul_1_r. reflexivity.
Qed.

Lemma lt_of_Z (a b : Z) : lt (of_Z a) (of_Z b) = (a <? b)%Z.
Proof.
  unfold lt, of_Z. destruct (Z.ltb_spec a b) as [H|H].
  - rewrite Qle_bool_false; [reflexivity|]. now rewrite <- Zlt_Qlt.
  - rewrite Qle_bool_true; [reflexivity|]. now rewrite <- Zle_Qle.
Qed.

Lemma Qred_inject_Z (z : Z) : Qred (inject_Z z) = inject_Z z.
Proof. apply Qred_identity. simpl. apply Z.gcd_1_r. Qed.

Lemma sub_of_Z (a b : Z) : sub (of_Z a) (of_Z b) = of_Z (a - b).
Proof.
  unfold sub, of_Z. f_equal. rewrite <- (Qred_inject_Z (a - b)).
  apply Qred_complete. unfold Z.sub.
  rewrite inject_Z_plus, inject_Z_opp. reflexivity.
Qed.

Lemma currentStock_of_Z (p : Product.t) (q : Z) :
  Product.stock p = of_Z q -> currentStock p = of_Z q.
Proof.
  intros H. unfold currentStock, or. rewrite H, truthy_of_Z.
  destruct (Z.eqb_spec q 0) as [-> |]; reflexivity.
Qed.

Lemma requestedQty_of_Z (o : Item.obj) (q : Z) :
  Item.qty o = VNum (of_Z q) -> q <> 0%Z -> requestedQty o = of_Z q.
Proof.
  intros H Hq. unfold requestedQty, or. rewrite H, truthy_of_Z.
  destruct (Z.eqb_spec q 0); [easy|reflexivity].
Qed.

Lemma World_eta (w : World) : mkWorld (products w) (orders w) = w.
Proof. now destruct w. Qed.

(** *** A single line item on a flat stock *)

Lemma decrement_flat (ps : gmap str Product.t) (o : Item.obj)
  (k : str) (p : Product.t) (q n : Z) :
  ps !! k = Some p ->
  Product.trackInventoryBySize p = false ->
  Product.stock p = of_Z q ->
  or (Item.id o) (Item.productId o) = VStr k -> k <> [] ->
  Item.qty o = VNum (of_Z n) -> n <> 0%Z ->
  decrement_item ps (Item.Obj o) =
    if (q <? n)%Z
    then Answer (mkResponse 409
           (OutOfStock (lit "Insufficient stock for " ++ Product.title p)
              (VStr k) (of_Z q)))
    else Next (save ps k
           (Product.mk (Product.title p) (of_Z (q - n)) false
              (Product.sizeInventory p))).
Proof.
  intros Hl Htr Hst Hid Hk Hq Hn. unfold decrement_item.
  rewrite Hid, (truthy_VStr k Hk). simpl findById. rewrite Hl. simpl fmap.
  cbv beta iota. rewrite Htr, (currentStock_of_Z p q Hst), (requestedQty_of_Z o n Hq Hn).
  rewrite lt_of_Z, Hst, sub_of_Z. simpl andb. simpl negb.
  now destruct (Product.sizeInventory p).
Qed.

(** C6, as the code has it: for a product with flat stock [q] and a
    request, past the validation gates, whose only line item is for that
    product: with quantity [q], when [q] is at least 1, /verify and
    /manual succeed and leave the stock at 0; with quantity [q + 1] they
    answer 409 with [availableQty] [q] and leave the collections as they
    were. *)
Theorem flat_stock_exact_and_excess
  (e : Env) (w : World) (user : User.t) (k : str) (p : Product.t)
  (q : Z) (o : Item.obj) :
  products w !! k = Some p ->
  Product.trackInventoryBySize p = false ->
  Product.stock p = of_Z q -> (0 <= q)%Z ->
  or (Item.id o) (Item.productId o) = VStr k -> k <> [] ->
  ((1 <= q)%Z -> Item.qty o = VNum (of_Z q) ->
     (forall b keySecret, verify_gates e b keySecret [Item.Obj o] ->
        ok (fst (verify e w user b)) = true
        /\ status (fst (verify e w user b)) = 200%nat
        /\ Product.stock <$> products (snd (verify e w user b)) !! k
           = Some (of_Z 0))
     /\ (forall b transactionId, manual_gates b transactionId [Item.Obj o] ->
        ok (fst (manual w user b)) = true
        /\ status (fst (manual w user b)) = 200%nat
        /\ Product.stock <$> products (snd (manual w user b)) !! k
           = Some (of_Z 0)))
  /\ (Item.qty o = VNum (of_Z (q + 1)) ->
      let r := mkResponse 409
                 (OutOfStock (lit "Insufficient stock for " ++ Product.title p)
                    (VStr k) (of_Z q)) in
      (forall b keySecret, verify_gates e b keySecret [Item.Obj o] ->
         verify e w user b = (r, w))
      /\ (forall b transactionId, manual_gates b transactionId [Item.Obj o] ->
         manual w user b = (r, w))).
Proof.
  intros Hl Htr Hst Hq Hid Hk. split.
  - intros Hq1 Hqty.
    assert (Hloop : decrement_inventory (products w) [Item.Obj o]
              = (Completed,
                 save (products w) k
                   (Product.mk (Product.title p) (of_Z 0) false
                      (Product.sizeInventory p)))).
    { cbn [decrement_inventory].
      rewrite (decrement_flat _ o k p q q) by (try assumption; lia).
      rewrite Z.ltb_irrefl, Z.sub_diag. reflexivity. }
    split.
    + intros b keySecret Hg.
      rewrite (verify_reaches_checkout _ _ _ _ _ _ Hg).
      unfold verify_checkout. rewrite Hloop. cbn.
      unfold save. now rewrite lookup_insert_eq.
    + intros b transactionId Hg.
      rewrite (manual_reaches_checkout _ _ _ _ _ Hg).
      unfold manual_checkout. rewrite Hloop. cbn.
      unfold save. now rewrite lookup_insert_eq.
  - intros Hqty r.
    assert (Hloop : decrement_inventory (products w) [Item.Obj o]
              = (Answered r, products w)).
    { cbn [decrement_inventory].
      rewrite (decrement_flat _ o k p q (q + 1)) by (try assumption; lia).
      replace (q <? q + 1)%Z with true by (symmetry; apply Z.ltb_lt; lia).
      reflexivity. }
    split.
    + intros b keySecret Hg.
      rewrite (verify_reaches_checkout _ _ _ _ _ _ Hg).
      unfold verify_checkout. rewrite Hloop. now rewrite World_eta.
    + intros b transactionId Hg.
      rewrite (manual_reaches_checkout _ _ _ _ _ Hg).
      unfold manual_checkout. rewrite Hloop. now rewrite World_eta.
Qed.

(** *** The Product invariant *)

Lemma nonneg_int_sub (a b : num) :
  nonneg_int a -> is_integer b -> lt a b = false -> nonneg_int (sub a b).
Proof.
  destruct a as [| | |x]; try easy. destruct b as [| | |y]; try easy.
  intros (za & Hza & Hx) (zb & Hy) Hlt. simpl in *.
  apply negb_false_iff, Qle_bool_iff in Hlt.
  exists (za - zb)%Z. split.
  - rewrite Hx, Hy in Hlt. rewrite <- Zle_Qle in Hlt. lia.
  - rewrite Qred_correct, Hx, Hy. unfold Z.sub.
    rewrite inject_Z_plus, inject_Z_opp. reflexivity.
Qed.

Lemma lt_currentStock (p : Product.t) (rq : num) :
  lt (currentStock p) rq = false -> lt (Product.stock p) rq = false.
Proof.
  unfold currentStock, or, truthy.
  destruct (Product.stock p) as [| | |x]; try easy.
  destruct (Qeq_bool x 0) eqn:E; [|easy]. simpl negb. cbv iota.
  apply Qeq_bool_eq in E. destruct rq as [| | |y]; try easy.
  unfold lt, of_Z. intros H.
  apply negb_false_iff, Qle_bool_iff in H.
  apply negb_false_iff, Qle_bool_iff. now rewrite E.
Qed.

Create HintDb payment.
#[local] Hint Resolve nonneg_int_sub lt_currentStock : payment.

Lemma findById_lookup (ps : gmap str Product.t) (v : val) (k : str)
  (p : Product.t) :
  findById ps v = Some (k, p) -> ps !! k = Some p.
Proof.
  destruct v as [| | | |s]; try discriminate. simpl.
  destruct (ps !! s) eqn:E; simpl; [|discriminate].
  intros [= <- <-]. exact E.
Qed.

Section Invariant.

Variables (ps : gmap str Product.t) (o : Item.obj).
Hypothesis Hok : inventory_ok ps.
Hypothesis Hint : is_integer (requestedQty o).

(** The product a line item resolves to satisfies the invariant, and so
    does what the flat branch stores for it. *)
Lemma flat_branch_ok (k : str) (p : Product.t) :
  ps !! k = Some p ->
  lt (currentStock p) (requestedQty o) = false ->
  inventory_ok
    (save ps k
       (Product.mk (Product.title p)
          (sub (Product.stock p) (requestedQty o))
          (Product.trackInventoryBySize p) (Product.sizeInventory p))).
Proof.
  intros Hl Hlt. destruct (Hok k p Hl) as [Hstock Hsizes].
  apply map_Forall_insert_2; [|exact Hok].
  split; [|exact Hsizes]. simpl. eauto with payment.
Qed.

Lemma size_branch_ok (k : str) (p : Product.t) (sizes : list SizeEntry.t)
  (i : nat) (entry : SizeEntry.t) :
  ps !! k = Some p ->
  Product.sizeInventory p = Some sizes ->
  sizes !! i = Some entry ->
  lt (SizeEntry.qty entry) (requestedQty o) = false ->
  inventory_ok
    (save ps k
       (Product.mk (Product.title p) (Product.stock p)
          (Product.trackInventoryBySize p)
          (Some (<[i := SizeEntry.mk (SizeEntry.code entry)
                          (sub (SizeEntry.qty entry) (requestedQty o))]>
                   sizes)))).
Proof.
  intros Hl Hs He Hlt. destruct (Hok k p Hl) as [Hstock Hsizes].
  specialize (Hsizes sizes Hs).
  apply map_Forall_insert_2; [|exact Hok].
  split; [exact Hstock|]. simpl. intros ? [= <-].
  apply Forall_insert; [exact Hsizes|]. simpl.
  pose proof (Forall_lookup_1 _ _ _ _ Hsizes He). eauto with payment.
Qed.

Lemma decrement_item_ok (ps' : gmap str Product.t) :
  decrement_item ps (Item.Obj o) = Next ps' -> inventory_ok ps'.
Proof.
  unfold decrement_item.
  destruct (truthy (or (Item.id o) (Item.productId o))); [|now intros [= <-]].
  destruct (findById ps (or (Item.id o) (Item.productId o))) as [[k p]|] eqn:Hf;
    [|now intros [= <-]].
  apply findById_lookup in Hf.
  assert (Hflat :
    (if negb (Product.trackInventoryBySize p)
     then if lt (currentStock p) (requestedQty o)
          then Answer (mkResponse 409
                 (OutOfStock (lit "Insufficient stock for " ++ Product.title p)
                    (or (Item.id o) (Item.productId o)) (currentStock p)))
          else Next (save ps k
                 (Product.mk (Product.title p)
                    (sub (Product.stock p) (requestedQty o))
                    (Product.trackInventoryBySize p)
                    (Product.sizeInventory p)))
     else Next ps) = Next ps' -> inventory_ok ps').
  { destruct (negb (Product.trackInventoryBySize p)); [|now intros [= <-]].
    destruct (lt (currentStock p) (requestedQty o)) eqn:Hlt; [discriminate|].
    intros [= <-]. now apply flat_branch_ok. }
  destruct (Product.trackInventoryBySize p && truthy (Item.size o));
    [|exact Hflat].
  destruct (Product.sizeInventory p) as [sizes|] eqn:Hs; [|exact Hflat].
  destruct (findIndex _ sizes) as [i|]; [|now intros [= <-]].
  destruct (sizes !! i) as [entry|] eqn:He; [|discriminate].
  destruct (lt (SizeEntry.qty entry) (requestedQty o)) eqn:Hlt; [discriminate|].
  intros [= <-]. now apply size_branch_ok.
Qed.

End Invariant.

Lemma decrement_inventory_ok (items : list Item.t) (ps : gmap str Product.t) :
  inventory_ok ps -> integer_quantities items ->
  inventory_ok (snd (decrement_inventory ps items)).
Proof.
  intros Hok Hint. revert ps Hok.
  induction Hint as [|item items Hi _ IH]; intros ps Hok; [exact Hok|].
  cbn [decrement_inventory].
  destruct (decrement_item ps item) as [ps'| |] eqn:E; try exact Hok.
  apply IH. destruct item as [|o]; [discriminate|].
  exact (decrement_item_ok ps o Hok Hi ps' E).
Qed.

Lemma verify_checkout_products (w : World) (user : User.t) (b : Verify.body)
  (oid pid : str) (items : list Item.t) :
  products (snd (verify_checkout w user b oid pid items))
  = snd (decrement_inventory (products w) items).
Proof.
  unfold verify_checkout.
  now destruct (decrement_inventory (products w) items) as [[| |] ps].
Qed.

Lemma manual_checkout_products (w : World) (user : User.t) (b : Manual.body)
  (t : str) (items : list Item.t) :
  products (snd (manual_checkout w user b t items))
  = snd (decrement_inventory (products w) items).
Proof.
  unfold manual_checkout.
  now destruct (decrement_inventory (products w) items) as [[| |] ps].
Qed.

Lemma verify_products (e : Env) (w : World) (user : User.t) (b : Verify.body) :
  products (snd (verify e w user b)) = products w
  \/ products (snd (verify e w user b))
     = snd (decrement_inventory (products w) (items_of (Verify.items b))).
Proof.
  unfold verify.
  repeat match goal with
         | |- context [snd (if ?c then _ else _)] => destruct c
         | |- context [snd (match ?x with _ => _ end)] => destruct x
         end;
    try (left; reflexivity).
  right. apply verify_checkout_products.
Qed.

Lemma manual_products (w : World) (user : User.t) (b : Manual.body) :
  products (snd (manual w user b)) = products w
  \/ products (snd (manual w user b))
     = snd (decrement_inventory (products w) (items_of (Manual.items b))).
Proof.
  unfold manual.
  repeat match goal with
         | |- context [snd (if ?c then _ else _)] => destruct c
         | |- context [snd (match ?x with _ => _ end)] => destruct x
         end;
    try (left; reflexivity).
  right. apply manual_checkout_products.
Qed.


(** *** The signature *)

Lemma present_identifier (s : str) :
  trim s <> [] -> missing_or_invalid (VStr s) = false.
Proof.
  intros H. unfold missing_or_invalid.
  rewrite (truthy_VStr (trim s) H).
  destruct s; [now compute in H|reflexivity].
Qed.

Lemma verifySignature_spec (oid pid sig keySecret : str) :
  verifySignature oid pid sig keySecret = true
  <-> sig = generatedSignature keySecret oid pid.
Proof.
  unfold verifySignature, str_eqb. rewrite bool_decide_eq_true.
  split; intros H; now symmetry.
Qed.

Lemma verifySignature_mismatch (oid pid sig keySecret : str) :
  sig <> generatedSignature keySecret oid pid ->
  verifySignature oid pid sig keySecret = false.
Proof.
  intros H. destruct (verifySignature oid pid sig keySecret) eqn:E;
    [|reflexivity].
  now apply verifySignature_spec in E.
Qed.

(** Up to the signature check, /verify depends on the three identifiers
    and on the secret only. *)
Lemma verify_until_signature (e : Env) (w : World) (user : User.t)
  (b : Verify.body) (oid pid sig keySecret : str) :
  Verify.razorpayOrderId b = VStr oid -> trim oid <> [] ->
  Verify.razorpayPaymentId b = VStr pid -> trim pid <> [] ->
  Verify.razorpaySignature b = VStr sig -> trim sig <> [] ->
  verify_keySecret e = Some keySecret ->
  verify e w user b =
    if negb (verifySignature oid pid sig keySecret)
    then (fail 400 "Invalid payment signature", w)
    else
      match Verify.items b with
      | Some ((_ :: _) as items) =>
          if negb (truthy (Verify.city b)) || negb (truthy (Verify.state b))
             || negb (truthy (Verify.pincode b))
          then (fail 400 "City, state, and pincode are required", w)
          else if negb (pinOk (Verify.pincode b))
          then (fail 400 "Invalid pincode", w)
          else verify_checkout w user b oid pid items
      | _ =>
          (json (Verified (lit "Payment verified successfully")
                   None pid oid), w)
      end.
Proof.
  intros Ho Hto Hp Htp Hs Hts Hk. unfold verify.
  rewrite Ho, Hp, Hs, Hk.
  rewrite !present_identifier by assumption. reflexivity.
Qed.



(** *** Verification without an item payload *)

(** C4: with the three identifiers present, a signature that matches
    under the configured secret and no item payload, /verify answers
    success, changes no product and records no order; a second call
    with the same request does the same. *)
Theorem verification_without_items_is_pure
  (e : Env) (w : World) (user : User.t) (b : Verify.body)
  (oid pid sig keySecret : str) :
  Verify.razorpayOrderId b = VStr oid -> trim oid <> [] ->
  Verify.razorpayPaymentId b = VStr pid -> trim pid <> [] ->
  Verify.razorpaySignature b = VStr sig -> trim sig <> [] ->
  verify_keySecret e = Some keySecret ->
  verifySignature oid pid sig keySecret = true ->
  Verify.items b = None \/ Verify.items b = Some [] ->
  let r := json (Verified (lit "Payment verified successfully") None pid oid) in
  ok r = true
  /\ verify e w user b = (r, w)
  /\ verify e (snd (verify e w user b)) user b = (r, w).
Proof.
  intros Ho Hto Hp Htp Hs Hts Hk Hv Hi r.
  assert (H : forall w0, verify e w0 user b = (r, w0)).
  { intros w0.
    rewrite (verify_until_signature e w0 user b oid pid sig keySecret)
      by assumption.
    rewrite Hv. now destruct Hi as [-> | ->]. }
  split; [reflexivity|]. split; [apply H|]. rewrite (H w). apply H.
Qed.

(** *** The pincode *)


(** *** The theorems at the sample requests *)

Lemma shop_ok (q m l : Z) :
  (0 <= q)%Z -> (0 <= m)%Z -> (0 <= l)%Z ->
  inventory_ok (products (Sample.shop q m l)).
Proof.
  intros Hq Hm Hl. unfold inventory_ok, Sample.shop, products.
  assert (H0 : nonneg_int (of_Z 0)) by (exists 0%Z; split; [lia|reflexivity]).
  apply map_Forall_insert_2; [|apply map_Forall_insert_2;
                                [|apply map_Forall_empty]].
  - split; [exists q; split; [lia|reflexivity]|discriminate].
  - split; [exact H0|]. intros sizes [= <-].
    repeat constructor; simpl;
      [exists m|exists l]; (split; [lia|reflexivity]).
Qed.

Lemma insufficient_stock_keeps_earlier_decrements_witness :
  let w := Sample.shop 5 1 1 in
  let items := [Sample.line "P1" VUndef (VNum (of_Z 2));
                Sample.line "P2" (VStr (lit "M")) (VNum (of_Z 2))] in
  let r := mkResponse 409
             (OutOfStock (lit "Insufficient stock for Shirt size M")
                (VStr (lit "P2")) (of_Z 1)) in
  let left := mkWorld (<[lit "P1" := Sample.flat 3]> (products w)) [] in
  verify Sample.env w Sample.user
    (Sample.verify_body Sample.sig (Some items) (VStr (lit "411001")))
    = (r, left)
  /\ manual w Sample.user
       (Sample.manual_body (VStr (lit "T1")) (Some items) (VStr (lit "411001")))
     = (r, left).
Proof.
  intros w items r left.
  assert (Hins : Insufficient (products left)
                   (Sample.line "P2" (VStr (lit "M")) (VNum (of_Z 2))) r).
  { refine (insufficient_size (products left) _ (lit "P2")
              (Sample.sized 1 1) _ 0%nat
              (SizeEntry.mk (lit "M") (of_Z 1)) (lit "M")
              _ _ _ _ _ _ _ _ _); concrete. }
  destruct (insufficient_stock_keeps_earlier_decrements Sample.env w
              Sample.user [Sample.line "P1" VUndef (VNum (of_Z 2))] []
              _ (products left) r ltac:(concrete) Hins) as (_ & Hv & Hm).
  split.
  - apply (Hv _ (lit "s3cret")). gates.
  - apply (Hm _ (lit "T1")). gates.
Defined.

Lemma unmatched_size_is_skipped_witness :
  let ps := products (Sample.shop 5 1 1) in
  decrement_item ps (Sample.line "P2" (VStr (lit "XL")) (VNum (of_Z 1)))
    = Next ps
  /\ decrement_item ps (Sample.line "P2" VUndef (VNum (of_Z 1))) = Next ps.
Proof.
  intros ps. split.
  - refine (proj1 (unmatched_size_is_skipped ps _ (lit "P2")
                     (Sample.sized 1 1) [] _ _ _)); try reflexivity.
    right. intros sizes [= <-]. repeat constructor; discriminate.
  - refine (proj1 (unmatched_size_is_skipped ps _ (lit "P2")
                     (Sample.sized 1 1) [] _ _ _)); try reflexivity.
    left. reflexivity.
Defined.

Lemma falsy_qty_requests_one_witness :
  requestedQty (Item.mk (VStr (lit "P1")) VUndef VUndef (VNum (of_Z 0)) VUndef)
    = of_Z 1
  /\ requestedQty (Item.mk (VStr (lit "P1")) VUndef VUndef VUndef VUndef)
     = of_Z 1
  /\ requestedQty (Item.mk (VStr (lit "P1")) VUndef VUndef (VStr []) VUndef)
     = of_Z 1.
Proof.
  split; [|split]; refine (proj1 (falsy_qty_requests_one _ _)); reflexivity.
Defined.

Lemma flat_stock_exact_and_excess_witness :
  let w := Sample.shop 5 1 1 in
  let exact :=
    Sample.manual_body (VStr (lit "T1"))
      (Some [Sample.line "P1" VUndef (VNum (of_Z 5))]) (VStr (lit "411001")) in
  let excess :=
    Sample.verify_body Sample.sig
      (Some [Sample.line "P1" VUndef (VNum (of_Z 6))]) (VStr (lit "411001")) in
  (ok (fst (manual w Sample.user exact)) = true
   /\ status (fst (manual w Sample.user exact)) = 200%nat
   /\ Product.stock <$> products (snd (manual w Sample.user exact)) !! lit "P1"
      = Some (of_Z 0))
  /\ verify Sample.env w Sample.user excess
     = (mkResponse 409
          (OutOfStock (lit "Insufficient stock for Mug") (VStr (lit "P1"))
             (of_Z 5)), w).
Proof.
  intros w exact excess. split.
  - refine (proj2 (proj1 (flat_stock_exact_and_excess Sample.env w Sample.user
                            (lit "P1") (Sample.flat 5) 5 _ _ _ _ _ _ _)
                     _ _) exact (lit "T1") _);
      try reflexivity; try discriminate; gates.
  - refine (proj1 (proj2 (flat_stock_exact_and_excess Sample.env w Sample.user
                            (lit "P1") (Sample.flat 5) 5 _ _ _ _ _ _ _)
                     _) excess (lit "s3cret") _);
      try reflexivity; try discriminate; gates.
Defined.

(** C6 fails as worded at [q = 0]: a quantity of 0 is falsy and stands
    for 1, so the request for 0 units of a stock of 0 is answered 409. *)
Lemma zero_stock_refuses_zero_qty :
  let w := Sample.shop 0 1 1 in
  let items := [Sample.line "P1" VUndef (VNum (of_Z 0))] in
  let b := Sample.manual_body (VStr (lit "T1")) (Some items)
             (VStr (lit "411001")) in
  Product.stock <$> products w !! lit "P1" = Some (of_Z 0)
  /\ manual_gates b (lit "T1") items
  /\ manual w Sample.user b
     = (mkResponse 409
          (OutOfStock (lit "Insufficient stock for Mug") (VStr (lit "P1"))
             (of_Z 0)), w).
Proof.
  split; [reflexivity|]. split; [gates|concrete].
Qed.



Lemma verification_without_items_is_pure_witness :
  let w := Sample.shop 5 1 1 in
  let b := Sample.verify_body Sample.sig None VUndef in
  let r := json (Verified (lit "Payment verified successfully") None
                   Sample.pid Sample.oid) in
  ok r = true
  /\ verify Sample.env w Sample.user b = (r, w)
  /\ verify Sample.env (snd (verify Sample.env w Sample.user b)) Sample.user b
     = (r, w).
Proof.
  intros w b r.
  refine (verification_without_items_is_pure Sample.env w Sample.user b
            Sample.oid Sample.pid Sample.sig (lit "s3cret")
            _ _ _ _ _ _ _ _ _); try concrete.
  left. reflexivity.
Defined.


(** ** Further properties of the routes and of the origin check *)

(** *** The loop, turn by turn, and what the routes come to *)

Lemma findById_key (ps : gmap str Product.t) (v : val) (k : str) (p : Product.t) :
  findById ps v = Some (k, p) -> v = VStr k.
Proof.
  destruct v as [| | | |s]; try discriminate. simpl.
  destruct (ps !! s); simpl; [|discriminate]. now intros [= <- _].
Qed.

Lemma findIndex_Some {A : Type} (f : A -> bool) (l : list A) (i : nat) :
  findIndex f l = Some i ->
  exists x, l !! i = Some x /\ f x = true
            /\ forall j y, (j < i)%nat -> l !! j = Some y -> f y = false.
Proof.
  revert i. induction l as [|a l IH]; intros i; simpl; [discriminate|].
  destruct (f a) eqn:Ha.
  - intros [= <-]. exists a. repeat split; trivial. intros j y Hj. lia.
  - destruct (findIndex f l) as [i'|]; simpl; [|discriminate].
    intros [= <-]. destruct (IH i' eq_refl) as (x & Hx & Hfx & Hbefore).
    exists x. repeat split; trivial.
    intros [|j] y Hj; simpl.
    + now intros [= <-].
    + apply Hbefore. lia.
Qed.

Lemma decrement_item_cases (ps : gmap str Product.t) (o : Item.obj) :
  decrement_item ps (Item.Obj o) = Next ps
  \/ (exists k p,
        truthy (or (Item.id o) (Item.productId o)) = true
        /\ findById ps (or (Item.id o) (Item.productId o)) = Some (k, p)
        /\ Product.trackInventoryBySize p = false
        /\ decrement_item ps (Item.Obj o) = flat_turn ps o k p)
  \/ (exists k p sizes i entry,
        truthy (or (Item.id o) (Item.productId o)) = true
        /\ findById ps (or (Item.id o) (Item.productId o)) = Some (k, p)
        /\ Product.trackInventoryBySize p = true
        /\ truthy (Item.size o) = true
        /\ Product.sizeInventory p = Some sizes
        /\ findIndex (fun s => strict_eq_str (SizeEntry.code s) (Item.size o))
             sizes = Some i
        /\ sizes !! i = Some entry
        /\ decrement_item ps (Item.Obj o) = size_turn ps o k p sizes i entry).
Proof.
  unfold decrement_item, flat_turn, size_turn.
  destruct (truthy (or (Item.id o) (Item.productId o))) eqn:Ht; [|now left].
  destruct (findById ps (or (Item.id o) (Item.productId o))) as [[k p]|] eqn:Hf;
    [|now left].
  destruct (Product.trackInventoryBySize p) eqn:Htr.
  - destruct (truthy (Item.size o)) eqn:Hs; simpl andb.
    + destruct (Product.sizeInventory p) as [sizes|] eqn:Hsz; [|now left].
      destruct (findIndex _ sizes) as [i|] eqn:Hi; [|now left].
      destruct (findIndex_Some _ _ _ Hi) as (entry & He & _).
      rewrite He. right. right. exists k, p, sizes, i, entry.
      repeat split; trivial. now rewrite Htr.
    + left. now destruct (Product.sizeInventory p).
  - right. left. exists k, p. repeat split; trivial.
    simpl andb. rewrite Htr. now destruct (Product.sizeInventory p).
Qed.

Lemma decrement_item_throws (ps : gmap str Product.t) (item : Item.t) :
  decrement_item ps item = Throw <-> item = Item.Nullish.
Proof.
  split; [|now intros ->].
  destruct item as [|o]; [reflexivity|]. intros H. exfalso.
  destruct (decrement_item_cases ps o)
    as [E | [(k & p & _ & _ & _ & E) | (k & p & sizes & i & entry & _ & _ & _ & _ & _ & _ & _ & E)]];
    rewrite E in H; try discriminate.
  - unfold flat_turn in H. now destruct (lt _ _).
  - unfold size_turn in H. now destruct (lt _ _).
Qed.

(** An answer of the loop is the answer to an insufficient stock. *)
Lemma decrement_item_answers (ps : gmap str Product.t) (item : Item.t)
  (r : Response) :
  decrement_item ps item = Answer r <-> Insufficient ps item r.
Proof.
  split; [|apply Insufficient_answer].
  destruct item as [|o]; [discriminate|]. intros H.
  destruct (decrement_item_cases ps o)
    as [E | [(k & p & Ht & Hf & Htr & E) | (k & p & sizes & i & entry & Ht & Hf & Htr & Hs & Hsz & Hi & He & E)]];
    rewrite E in H; try discriminate.
  - unfold flat_turn in H.
    destruct (lt (currentStock p) (requestedQty o)) eqn:Hlt; [|discriminate].
    injection H as <-. now apply (insufficient_flat ps o k p).
  - unfold size_turn in H.
    destruct (lt (SizeEntry.qty entry) (requestedQty o)) eqn:Hlt; [|discriminate].
    injection H as <-.
    destruct (findIndex_Some _ _ _ Hi) as (x & _ & Hx & _).
    destruct (Item.size o) as [| | | |size] eqn:Hsize; try discriminate.
    simpl ToString.
    apply (insufficient_size ps o k p sizes i entry size); trivial.
    + now destruct size.
    + now rewrite Hsize.
Qed.

Lemma strict_eq_str_true (c : str) (v : val) :
  strict_eq_str c v = true <-> v = VStr c.
Proof.
  destruct v; simpl; try (split; [discriminate|congruence]).
  unfold str_eqb. rewrite bool_decide_eq_true. split; congruence.
Qed.

(** A relation between the collection before and after that every turn
    keeps, for items that satisfy [P], holds of the whole loop however it
    ends. *)
Lemma decrement_inventory_keeps
  (R : gmap str Product.t -> gmap str Product.t -> Prop) (P : Item.t -> Prop) :
  (forall ps, R ps ps) ->
  (forall a b c, R a b -> R b c -> R a c) ->
  (forall ps o ps', P (Item.Obj o) ->
     decrement_item ps (Item.Obj o) = Next ps' -> R ps ps') ->
  forall items ps, Forall P items -> R ps (snd (decrement_inventory ps items)).
Proof.
  intros Hrefl Htrans Hstep items ps HP. revert ps.
  induction HP as [|item items Hi _ IH]; intros ps; [apply Hrefl|].
  cbn [decrement_inventory].
  destruct (decrement_item ps item) as [ps'| |] eqn:E; try apply Hrefl.
  destruct item as [|o]; [discriminate|].
  apply Htrans with ps'; [now apply (Hstep ps o)|apply IH].
Qed.

Lemma decrement_inventory_answered (items : list Item.t)
  (ps ps' : gmap str Product.t) (r : Response) :
  decrement_inventory ps items = (Answered r, ps') ->
  exists pre item rest,
    items = pre ++ item :: rest
    /\ decrement_inventory ps pre = (Completed, ps')
    /\ decrement_item ps' item = Answer r.
Proof.
  revert ps. induction items as [|item items IH]; intros ps; [discriminate|].
  cbn [decrement_inventory].
  destruct (decrement_item ps item) as [ps1|r1|] eqn:E; [| |discriminate].
  - intros H. destruct (IH ps1 H) as (pre & it & rest & -> & Hpre & Hit).
    exists (item :: pre), it, rest. repeat split; trivial.
    cbn [decrement_inventory]. now rewrite E.
  - intros [= <- <-]. now exists [], item, items.
Qed.

Lemma decrement_inventory_thrown (items : list Item.t)
  (ps ps' : gmap str Product.t) :
  decrement_inventory ps items = (Thrown, ps') ->
  exists pre rest,
    items = pre ++ Item.Nullish :: rest
    /\ decrement_inventory ps pre = (Completed, ps').
Proof.
  revert ps. induction items as [|item items IH]; intros ps; [discriminate|].
  cbn [decrement_inventory].
  destruct (decrement_item ps item) as [ps1|r1|] eqn:E; [|discriminate|].
  - intros H. destruct (IH ps1 H) as (pre & rest & -> & Hpre).
    exists (item :: pre), rest. repeat split; trivial.
    cbn [decrement_inventory]. now rewrite E.
  - intros [= <-]. apply decrement_item_throws in E as ->. now exists [], items.
Qed.

Lemma verify_cases (e : Env) (w : World) (user : User.t) (b : Verify.body) :
  (exists m, verify e w user b = (fail 400 m, w))
  \/ (verify_keySecret e = None
      /\ verify e w user b
         = (fail 500 "Payment verification system not configured", w))
  \/ (exists keySecret,
        verify_keySecret e = Some keySecret
        /\ verifySignature (str_of (Verify.razorpayOrderId b))
             (str_of (Verify.razorpayPaymentId b))
             (str_of (Verify.razorpaySignature b)) keySecret = true
        /\ items_of (Verify.items b) = []
        /\ verify e w user b
           = (json (Verified (lit "Payment verified successfully") None
                      (str_of (Verify.razorpayPaymentId b))
                      (str_of (Verify.razorpayOrderId b))), w))
  \/ (exists keySecret items,
        verify_gates e b keySecret items
        /\ verify e w user b
           = verify_checkout w user b (str_of (Verify.razorpayOrderId b))
               (str_of (Verify.razorpayPaymentId b)) items).
Proof.
  unfold verify.
  destruct (missing_or_invalid (Verify.razorpayOrderId b)) eqn:Ho; [left; eauto|].
  destruct (missing_or_invalid (Verify.razorpayPaymentId b)) eqn:Hp; [left; eauto|].
  destruct (missing_or_invalid (Verify.razorpaySignature b)) eqn:Hs; [left; eauto|].
  destruct (verify_keySecret e) as [keySecret|] eqn:Hk; [|right; left; eauto].
  destruct (verifySignature _ _ _ keySecret) eqn:Hv; cbn [negb]; [|left; eauto].
  destruct (Verify.items b) as [[|item items]|] eqn:Hi;
    try (right; right; left; exists keySecret; now repeat split).
  destruct (truthy (Verify.city b)) eqn:Hc; cbn [negb orb]; [|left; eauto].
  destruct (truthy (Verify.state b)) eqn:Hst; cbn [negb orb]; [|left; eauto].
  destruct (truthy (Verify.pincode b)) eqn:Hpin; cbn [negb orb]; [|left; eauto].
  destruct (pinOk (Verify.pincode b)) eqn:Hok; cbn [negb]; [|left; eauto].
  right. right. right. exists keySecret, (item :: items).
  split; [|reflexivity]. unfold verify_gates. rewrite Hi. now repeat split.
Qed.

Lemma manual_cases (w : World) (user : User.t) (b : Manual.body) :
  (exists m, manual w user b = (fail 400 m, w))
  \/ (truthy (Manual.transactionId b) = true
      /\ is_string (Manual.transactionId b) = false
      /\ manual w user b = (caught "Failed to process payment", w))
  \/ (exists transactionId items,
        manual_gates b transactionId items
        /\ manual w user b = manual_checkout w user b transactionId items).
Proof.
  unfold manual.
  destruct (truthy (Manual.transactionId b)) eqn:Ht; cbn [negb]; [|left; eauto].
  destruct (Manual.transactionId b) as [| | | |t] eqn:Hid;
    try (right; left; now repeat split).
  destruct (truthy (VStr (trim t))) eqn:Htr; cbn [negb]; [|left; eauto].
  destruct (Manual.items b) as [[|item items]|] eqn:Hi; try (left; now eauto).
  destruct (truthy (Manual.city b)) eqn:Hc; cbn [negb orb]; [|left; eauto].
  destruct (truthy (Manual.state b)) eqn:Hst; cbn [negb orb]; [|left; eauto].
  destruct (truthy (Manual.pincode b)) eqn:Hpin; cbn [negb orb]; [|left; eauto].
  destruct (pinOk (Manual.pincode b)) eqn:Hok; cbn [negb]; [|left; eauto].
  right. right. exists t, (item :: items).
  split; [|reflexivity]. unfold manual_gates. rewrite Hi.
  repeat split; trivial; [intros E; now rewrite E in Htr|discriminate].
Qed.

(** X1: the inventory loop leaves a product as it was, absent ones
    absent, when no line item refers to it by [item.id || item.productId],
    however the loop ends. *)
Theorem unreferenced_product_is_untouched
  (ps : gmap str Product.t) (items : list Item.t) (k : str) :
  Forall (fun item => reference item <> VStr k) items ->
  snd (decrement_inventory ps items) !! k = ps !! k.
Proof.
  apply (decrement_inventory_keeps (fun a b => b !! k = a !! k)
           (fun item => reference item <> VStr k)).
  - reflexivity.
  - intros a b c H1 H2. now rewrite H2.
  - intros ps0 o ps' Hne H. simpl in Hne.
    destruct (decrement_item_cases ps0 o)
      as [E | [(k0 & p & _ & Hf & _ & E) | (k0 & p & sizes & i & entry & _ & Hf & _ & _ & _ & _ & _ & E)]];
      rewrite E in H.
    + now injection H as <-.
    + unfold flat_turn in H. destruct (lt _ _); [discriminate|].
      injection H as <-. apply findById_key in Hf.
      unfold save. apply lookup_insert_ne. congruence.
    + unfold size_turn in H. destruct (lt _ _); [discriminate|].
      injection H as <-. apply findById_key in Hf.
      unfold save. apply lookup_insert_ne. congruence.
Qed.

Lemma unreferenced_product_is_untouched_witness :
  let ps := products (Sample.shop 5 1 1) in
  snd (decrement_inventory ps
         [Sample.line "P1" VUndef (VNum (of_Z 2));
          Sample.line "P1" VUndef (VNum (of_Z 9))]) !! lit "P2"
  = ps !! lit "P2".
Proof.
  intros ps. apply (unreferenced_product_is_untouched ps _ (lit "P2")).
  repeat constructor; intros H; vm_compute in H; discriminate.
Defined.

Lemma same_shape_refl (p : Product.t) : same_shape p p.
Proof. now repeat split. Qed.

Lemma same_shape_trans (p q r : Product.t) :
  same_shape p q -> same_shape q r -> same_shape p r.
Proof.
  intros (Ht & Hf & Hc & Hs & Hz) (Ht' & Hf' & Hc' & Hs' & Hz').
  repeat split; try congruence.
  - intros H. rewrite Hs', Hs; congruence.
  - intros H. rewrite Hz', Hz; congruence.
Qed.

(** X2: the inventory loop creates no product and deletes none, and of
    a product it changes only the quantity its tracking mode reads: the
    title, the flag and the size codes stay, the flat stock of a product
    tracked by size stays, and so do the sizes of one that is not. *)
Theorem loop_keeps_the_catalogue
  (ps : gmap str Product.t) (items : list Item.t) (k : str) :
  option_Forall2 same_shape (ps !! k) (snd (decrement_inventory ps items) !! k).
Proof.
  revert k.
  apply (decrement_inventory_keeps
           (fun a b => forall k, option_Forall2 same_shape (a !! k) (b !! k))
           (fun _ => True)); [| | |now apply Forall_true].
  - intros a k. destruct (a !! k); constructor. apply same_shape_refl.
  - intros a b c H1 H2 k. specialize (H1 k). specialize (H2 k).
    destruct H1 as [p q Hpq|]; inversion H2; subst; constructor.
    eauto using same_shape_trans.
  - intros ps0 o ps' _ H k.
    assert (Hsave : forall k0 p p', ps0 !! k0 = Some p -> same_shape p p' ->
              option_Forall2 same_shape (ps0 !! k) (save ps0 k0 p' !! k)).
    { intros k0 p p' Hl Hs. unfold save.
      destruct (decide (k0 = k)) as [<- |Hne].
      - rewrite lookup_insert_eq, Hl. now constructor.
      - rewrite lookup_insert_ne by assumption.
        destruct (ps0 !! k); constructor. apply same_shape_refl. }
    destruct (decrement_item_cases ps0 o)
      as [E | [(k0 & p & _ & Hf & Htr & E) | (k0 & p & sizes & i & entry & _ & Hf & Htr & _ & Hsz & _ & He & E)]];
      rewrite E in H.
    + injection H as <-. destruct (ps0 !! k); constructor. apply same_shape_refl.
    + unfold flat_turn in H. destruct (lt _ _); [discriminate|].
      injection H as <-. apply (Hsave k0 p); [now apply findById_lookup in Hf|].
      repeat split; simpl; congruence.
    + unfold size_turn in H. destruct (lt _ _); [discriminate|].
      injection H as <-. apply (Hsave k0 p); [now apply findById_lookup in Hf|].
      repeat split; simpl; try congruence.
      rewrite Hsz. simpl. f_equal.
      rewrite list_fmap_insert. simpl. apply list_insert_id.
      now rewrite list_lookup_fmap, He.
Qed.

(** X3: the entries of a size code that no line item names stand where
    they stood, with the quantity they had, and the list of sizes keeps
    its length. *)
Theorem other_sizes_are_untouched
  (ps : gmap str Product.t) (items : list Item.t) (k c : str) :
  Forall (fun item => named_size item <> VStr c) items ->
  keeps_code_of k c ps (snd (decrement_inventory ps items)).
Proof.
  apply (decrement_inventory_keeps (keeps_code_of k c)
           (fun item => named_size item <> VStr c)).
  - intros a p sizes Hl Hs. exists p, sizes. now repeat split.
  - intros a b0 c0 H1 H2 p sizes Hl Hs.
    destruct (H1 p sizes Hl Hs) as (p1 & s1 & Hl1 & Hs1 & Hlen1 & Hk1).
    destruct (H2 p1 s1 Hl1 Hs1) as (p2 & s2 & Hl2 & Hs2 & Hlen2 & Hk2).
    exists p2, s2. repeat split; trivial; [congruence|].
    intros j e0 He Hc. apply Hk2; [now apply Hk1|assumption].
  - intros ps0 o ps' Hne H p sizes Hl Hs. simpl in Hne.
    destruct (decrement_item_cases ps0 o)
      as [E | [(k0 & p0 & _ & Hf & Htr & E) | (k0 & p0 & sizes0 & i & entry & _ & Hf & Htr & _ & Hsz & Hi & He & E)]];
      rewrite E in H.
    + injection H as <-. exists p, sizes. now repeat split.
    + unfold flat_turn in H. destruct (lt _ _); [discriminate|].
      injection H as <-. apply findById_lookup in Hf. unfold save.
      destruct (decide (k0 = k)) as [-> |Hk].
      * rewrite lookup_insert_eq. eexists _, sizes. split; [reflexivity|].
        simpl. split; [congruence|now split].
      * rewrite lookup_insert_ne by assumption. exists p, sizes. now repeat split.
    + unfold size_turn in H. destruct (lt _ _); [discriminate|].
      injection H as <-. apply findById_lookup in Hf. unfold save.
      destruct (decide (k0 = k)) as [-> |Hk].
      * rewrite lookup_insert_eq. eexists _, _. split; [reflexivity|].
        simpl. split; [reflexivity|].
        assert (sizes0 = sizes) as -> by congruence.
        split; [apply length_insert|].
        intros j e0 Hj Hc. rewrite list_lookup_insert_ne; [assumption|].
        intros <-. destruct (findIndex_Some _ _ _ Hi) as (x & Hx & Hfx & _).
        apply strict_eq_str_true in Hfx. congruence.
      * rewrite lookup_insert_ne by assumption. exists p, sizes. now repeat split.
Qed.

Lemma other_sizes_are_untouched_witness :
  let ps := products (Sample.shop 5 1 1) in
  keeps_code_of (lit "P2") (lit "L") ps
    (snd (decrement_inventory ps
            [Sample.line "P2" (VStr (lit "M")) (VNum (of_Z 1));
             Sample.line "P1" VUndef (VNum (of_Z 2))])).
Proof.
  intros ps. apply (other_sizes_are_untouched ps _ (lit "P2") (lit "L")).
  repeat constructor; intros H; vm_compute in H; discriminate.
Defined.

Lemma verify_checkout_settled (w : World) (user : User.t) (b : Verify.body)
  (oid pid : str) (items : list Item.t) :
  Settled w
    (json (Verified (lit "Payment verified successfully")
             (Some (verify_order user b items)) pid oid))
    (verify_order user b items) "Payment verification failed" items
    (verify_checkout w user b oid pid items).
Proof.
  unfold verify_checkout.
  destruct (decrement_inventory (products w) items) as [[|r|] ps1] eqn:E.
  - now apply settled_recorded.
  - destruct (decrement_inventory_answered _ _ _ _ E)
      as (pre & item & rest & -> & Hpre & Hit).
    apply decrement_item_answers in Hit.
    now apply (settled_out_of_stock _ _ _ _ _ pre item rest).
  - destruct (decrement_inventory_thrown _ _ _ E) as (pre & rest & -> & Hpre).
    now apply (settled_thrown _ _ _ _ _ pre rest).
Qed.

Lemma manual_checkout_settled (w : World) (user : User.t) (b : Manual.body)
  (t : str) (items : list Item.t) :
  Settled w
    (json (ManualAccepted (manual_order user b t items)
             (lit "Order created successfully. Your payment is pending verification.")))
    (manual_order user b t items) "Failed to process payment" items
    (manual_checkout w user b t items).
Proof.
  unfold manual_checkout.
  destruct (decrement_inventory (products w) items) as [[|r|] ps1] eqn:E.
  - now apply settled_recorded.
  - destruct (decrement_inventory_answered _ _ _ _ E)
      as (pre & item & rest & -> & Hpre & Hit).
    apply decrement_item_answers in Hit.
    now apply (settled_out_of_stock _ _ _ _ _ pre item rest).
  - destruct (decrement_inventory_thrown _ _ _ E) as (pre & rest & -> & Hpre).
    now apply (settled_thrown _ _ _ _ _ pre rest).
Qed.

Lemma Settled_status w success order fallback items res :
  Settled w success order fallback items res ->
  status success = 200%nat ->
  (status (fst res) = 409%nat \/ status (fst res) = 500%nat
   \/ fst res = success).
Proof.
  intros [pre item rest ps1 r _ _ Hins|pre rest ps1 _ _|ps1 _] Hs; simpl.
  - left. now apply (Insufficient_status ps1 item).
  - right. now left.
  - right. now right.
Qed.


(** X8: /create-order answers with one of 200, 400, 500, 502 and /verify
    and /manual with one of 200, 400, 409, 500; on each route the status
    is 200 exactly when the body says [ok: true]; and a 400 of /verify or
    /manual leaves the world as it was. *)
Theorem statuses_of_the_routes (e : Env) (w : World) (user : User.t) :
  (forall b : CreateOrder.body,
     In (status (fst (create_order e w b))) [200; 400; 500; 502]%nat
     /\ (status (fst (create_order e w b)) = 200%nat
         <-> ok (fst (create_order e w b)) = true))
  /\ (forall b : Verify.body,
     In (status (fst (verify e w user b))) [200; 400; 409; 500]%nat
     /\ (status (fst (verify e w user b)) = 200%nat
         <-> ok (fst (verify e w user b)) = true)
     /\ (status (fst (verify e w user b)) = 400%nat ->
         snd (verify e w user b) = w))
  /\ (forall b : Manual.body,
     In (status (fst (manual w user b))) [200; 400; 409; 500]%nat
     /\ (status (fst (manual w user b)) = 200%nat
         <-> ok (fst (manual w user b)) = true)
     /\ (status (fst (manual w user b)) = 400%nat ->
         snd (manual w user b) = w)).
Proof.
  split; [|split]; intros b.
  - unfold create_order.
    repeat match goal with
           | |- context [fst (if ?c then _ else _)] => destruct c
           | |- context [fst (match ?x with _ => _ end)] => destruct x
           end; simpl; (split; [tauto|split; (discriminate || reflexivity)]).
  - destruct (verify_cases e w user b)
      as [(m & E) | [(Hk & E) | [(ks & _ & _ & _ & E) | (ks & items & Hg & E)]]];
      rewrite E; simpl;
      try (split; [tauto|split; [split; (discriminate || reflexivity)|]];
           (discriminate || reflexivity)).
    destruct (verify_checkout_settled w user b
                (str_of (Verify.razorpayOrderId b))
                (str_of (Verify.razorpayPaymentId b)) items)
      as [pre item rest ps1 r Hit Hpre Hins|pre rest ps1 Hit Hpre|ps1 Hloop];
      simpl;
      try (split; [tauto|split; [split; (discriminate || reflexivity)|]];
           discriminate).
    pose proof (Insufficient_status _ _ _ Hins) as Hs. rewrite Hs.
    split; [simpl; tauto|]. split; [|discriminate].
    split; [discriminate|]. destruct Hins; discriminate.
  - destruct (manual_cases w user b)
      as [(m & E) | [(Ht & Hs & E) | (t & items & Hg & E)]];
      rewrite E; simpl;
      try (split; [tauto|split; [split; (discriminate || reflexivity)|]];
           (discriminate || reflexivity)).
    destruct (manual_checkout_settled w user b t items)
      as [pre item rest ps1 r Hit Hpre Hins|pre rest ps1 Hit Hpre|ps1 Hloop];
      simpl;
      try (split; [tauto|split; [split; (discriminate || reflexivity)|]];
           discriminate).
    pose proof (Insufficient_status _ _ _ Hins) as Hs. rewrite Hs.
    split; [simpl; tauto|]. split; [|discriminate].
    split; [discriminate|]. destruct Hins; discriminate.
Qed.

Lemma verify_orders (e : Env) (w : World) (user : User.t) (b : Verify.body) :
  orders (snd (verify e w user b))
  = orders w ++ option_list (recorded (fst (verify e w user b)))
  /\ forall order, recorded (fst (verify e w user b)) = Some order ->
       status (fst (verify e w user b)) = 200%nat
       /\ order = verify_order user b (items_of (Verify.items b))
       /\ decrement_inventory (products w) (items_of (Verify.items b))
          = (Completed, products (snd (verify e w user b))).
Proof.
  destruct (verify_cases e w user b)
    as [(m & E) | [(Hk & E) | [(ks & _ & _ & _ & E) | (ks & items & Hg & E)]]];
    rewrite E; simpl fst; simpl snd;
    try (split; [symmetry; apply app_nil_r|discriminate]).
  assert (Hi : items_of (Verify.items b) = items)
    by (destruct Hg as (_ & _ & _ & _ & _ & -> & _); reflexivity).
  rewrite Hi.
  destruct (verify_checkout_settled w user b
              (str_of (Verify.razorpayOrderId b))
              (str_of (Verify.razorpayPaymentId b)) items)
    as [pre item rest ps1 r Hit Hpre Hins|pre rest ps1 Hit Hpre|ps1 Hloop];
    simpl fst; simpl snd.
  - destruct Hins; (split; [symmetry; apply app_nil_r|discriminate]).
  - split; [symmetry; apply app_nil_r|discriminate].
  - split; [reflexivity|]. intros order [= <-]. now repeat split.
Qed.

Lemma manual_orders (w : World) (user : User.t) (b : Manual.body) :
  orders (snd (manual w user b))
  = orders w ++ option_list (recorded (fst (manual w user b)))
  /\ forall order, recorded (fst (manual w user b)) = Some order ->
       status (fst (manual w user b)) = 200%nat
       /\ order = manual_order user b (str_of (Manual.transactionId b))
                    (items_of (Manual.items b))
       /\ decrement_inventory (products w) (items_of (Manual.items b))
          = (Completed, products (snd (manual w user b))).
Proof.
  destruct (manual_cases w user b)
    as [(m & E) | [(Ht & Hs & E) | (t & items & Hg & E)]];
    rewrite E; simpl fst; simpl snd;
    try (split; [symmetry; apply app_nil_r|discriminate]).
  assert (Hi : items_of (Manual.items b) = items)
    by (destruct Hg as (_ & _ & -> & _); reflexivity).
  assert (Ht : str_of (Manual.transactionId b) = t)
    by (destruct Hg as (-> & _); reflexivity).
  rewrite Hi, Ht.
  destruct (manual_checkout_settled w user b t items)
    as [pre item rest ps1 r Hit Hpre Hins|pre rest ps1 Hit Hpre|ps1 Hloop];
    simpl fst; simpl snd.
  - destruct Hins; (split; [symmetry; apply app_nil_r|discriminate]).
  - split; [symmetry; apply app_nil_r|discriminate].
  - split; [reflexivity|]. intros order [= <-]. now repeat split.
Qed.

(** X9: the order collection after /verify or /manual is the one before
    with the order of the response, if it carries one, added at its end;
    a response carries an order only with status 200, after the loop
    completed over the items of the request, and the order is the one
    built from the request and the user. *)
Theorem orders_grow_by_the_recorded_order (e : Env) (w : World) (user : User.t) :
  (forall b : Verify.body,
     orders (snd (verify e w user b))
     = orders w ++ option_list (recorded (fst (verify e w user b)))
     /\ forall order, recorded (fst (verify e w user b)) = Some order ->
          status (fst (verify e w user b)) = 200%nat
          /\ order = verify_order user b (items_of (Verify.items b))
          /\ decrement_inventory (products w) (items_of (Verify.items b))
             = (Completed, products (snd (verify e w user b))))
  /\ (forall b : Manual.body,
     orders (snd (manual w user b))
     = orders w ++ option_list (recorded (fst (manual w user b)))
     /\ forall order, recorded (fst (manual w user b)) = Some order ->
          status (fst (manual w user b)) = 200%nat
          /\ order = manual_order user b (str_of (Manual.transactionId b))
                       (items_of (Manual.items b))
          /\ decrement_inventory (products w) (items_of (Manual.items b))
             = (Completed, products (snd (manual w user b)))).
Proof.
  split; intros b; [apply verify_orders | apply manual_orders].
Qed.

Lemma or_truthy (a b : val) : truthy a = true -> or a b = a.
Proof. unfold or. now intros ->. Qed.

(** X10: in a recorded order the city, the state and the pincode are those
    of the request: the fallbacks to the profile of the user never
    apply, since the request is refused without them; the pincode passes
    the pattern and the list of items is not empty.  An order of /verify
    has status paid and no [upi] record; an order of /manual has status
    pending and the trimmed transaction id, which is not empty. *)
Theorem recorded_order_ships_to_the_request
  (e : Env) (w : World) (user : User.t) :
  (forall (b : Verify.body) order,
     recorded (fst (verify e w user b)) = Some order ->
     Order.city order = Verify.city b
     /\ Order.state order = Verify.state b
     /\ Order.pincode order = Verify.pincode b
     /\ pinOk (Order.pincode order) = true
     /\ Order.status order = lit "paid"
     /\ Order.upi order = None
     /\ Order.items order <> [])
  /\ (forall (b : Manual.body) order,
     recorded (fst (manual w user b)) = Some order ->
     Order.city order = Manual.city b
     /\ Order.state order = Manual.state b
     /\ Order.pincode order = Manual.pincode b
     /\ pinOk (Order.pincode order) = true
     /\ Order.status order = lit "pending"
     /\ (exists u, Order.upi order = Some u /\ Order.txnId u <> []
                   /\ VStr (Order.txnId u)
                      = VStr (trim (str_of (Manual.transactionId b))))
     /\ Order.items order <> []).
Proof.
  split; intros b order.
  - destruct (verify_cases e w user b)
      as [(m & E) | [(Hk & E) | [(ks & _ & _ & _ & E) | (ks & items & Hg & E)]]];
      rewrite E; try discriminate.
    destruct (verify_checkout_settled w user b
                (str_of (Verify.razorpayOrderId b))
                (str_of (Verify.razorpayPaymentId b)) items)
      as [pre item rest ps1 r Hit Hpre Hins|pre rest ps1 Hit Hpre|ps1 Hloop];
      simpl fst; try discriminate; [destruct Hins; discriminate|].
    intros [= <-].
    destruct Hg as (_ & _ & _ & _ & _ & _ & Hne & Hc & Hs & Hp & Hok).
    unfold verify_order. simpl.
    rewrite !or_truthy by assumption. now repeat split.
  - destruct (manual_cases w user b)
      as [(m & E) | [(Ht & Hs & E) | (t & items & Hg & E)]];
      rewrite E; try discriminate.
    destruct (manual_checkout_settled w user b t items)
      as [pre item rest ps1 r Hit Hpre Hins|pre rest ps1 Hit Hpre|ps1 Hloop];
      simpl fst; try discriminate; [destruct Hins; discriminate|].
    intros [= <-].
    destruct Hg as (Hid & Htrim & _ & Hne & Hc & Hs & Hp & Hok).
    unfold manual_order. simpl.
    rewrite !or_truthy by assumption. rewrite Hid. simpl str_of.
    repeat split; trivial. eexists. repeat split; trivial.
Qed.

Lemma present_is_string (v : val) :
  missing_or_invalid v = false -> exists s, v = VStr s /\ trim s <> [].
Proof.
  unfold missing_or_invalid. intros H. apply orb_false_iff in H as [_ H].
  destruct v as [| | | |s]; try discriminate. exists s. split; [reflexivity|].
  intros E. now rewrite E in H.
Qed.

(** X15: /verify answers [ok: true] or changes the world only when the
    three identifiers are strings, [RAZORPAY_KEY_SECRET] is set in the
    process environment, and the signature is the digest of
    [orderId|paymentId] under that secret. *)
Theorem verify_acts_only_on_a_matching_signature
  (e : Env) (w : World) (user : User.t) (b : Verify.body) :
  ok (fst (verify e w user b)) = true \/ snd (verify e w user b) <> w ->
  exists oid pid sig keySecret,
    Verify.razorpayOrderId b = VStr oid
    /\ Verify.razorpayPaymentId b = VStr pid
    /\ Verify.razorpaySignature b = VStr sig
    /\ RAZORPAY_KEY_SECRET e = Some keySecret
    /\ sig = generatedSignature keySecret oid pid.
Proof.
  assert (Hsig : forall ks,
    missing_or_invalid (Verify.razorpayOrderId b) = false ->
    missing_or_invalid (Verify.razorpayPaymentId b) = false ->
    missing_or_invalid (Verify.razorpaySignature b) = false ->
    verify_keySecret e = Some ks ->
    verifySignature (str_of (Verify.razorpayOrderId b))
      (str_of (Verify.razorpayPaymentId b))
      (str_of (Verify.razorpaySignature b)) ks = true ->
    exists oid pid sig keySecret,
      Verify.razorpayOrderId b = VStr oid
      /\ Verify.razorpayPaymentId b = VStr pid
      /\ Verify.razorpaySignature b = VStr sig
      /\ RAZORPAY_KEY_SECRET e = Some keySecret
      /\ sig = generatedSignature keySecret oid pid).
  { intros ks Ho Hp Hs Hk Hv.
    apply present_is_string in Ho as (x1 & Ho & _).
    apply present_is_string in Hp as (x2 & Hp & _).
    apply present_is_string in Hs as (x3 & Hs & _).
    rewrite Ho, Hp, Hs in *. simpl in Hv.
    exists x1, x2, x3, ks. repeat split.
    - unfold verify_keySecret in Hk.
      destruct (getRazorpayInstance e); [|discriminate].
      destruct (RAZORPAY_KEY_SECRET e) as [s|]; [|discriminate].
      destruct (truthy (VStr s)); congruence.
    - now apply verifySignature_spec in Hv. }
  unfold verify.
  destruct (missing_or_invalid (Verify.razorpayOrderId b)) eqn:Ho;
    [intros [H|H]; [discriminate|now destruct H]|].
  destruct (missing_or_invalid (Verify.razorpayPaymentId b)) eqn:Hp;
    [intros [H|H]; [discriminate|now destruct H]|].
  destruct (missing_or_invalid (Verify.razorpaySignature b)) eqn:Hs;
    [intros [H|H]; [discriminate|now destruct H]|].
  destruct (verify_keySecret e) as [ks|] eqn:Hk;
    [|intros [H|H]; [discriminate|now destruct H]].
  destruct (verifySignature _ _ _ ks) eqn:Hv; cbn [negb];
    [|intros [H|H]; [discriminate|now destruct H]].
  intros _. now apply (Hsig ks).
Qed.

Lemma verify_acts_only_on_a_matching_signature_witness :
  exists oid pid sig keySecret,
    VStr Sample.oid = VStr oid /\ VStr Sample.pid = VStr pid
    /\ VStr Sample.sig = VStr sig
    /\ Some (lit "s3cret") = Some keySecret
    /\ sig = generatedSignature keySecret oid pid.
Proof.
  apply (verify_acts_only_on_a_matching_signature Sample.env
           (Sample.shop 5 1 1) Sample.user
           (Sample.verify_body Sample.sig None VUndef)).
  left. concrete.
Defined.

(** X13: a null or undefined entry in the item list makes [item.id]
    throw: the request is answered 500 by the [catch] of the handler, no
    order is recorded, and the decrements of the items before the entry
    stay. *)
Theorem null_item_aborts_after_the_decrements
  (e : Env) (w : World) (user : User.t) (pre rest : list Item.t)
  (ps1 : gmap str Product.t) :
  decrement_inventory (products w) pre = (Completed, ps1) ->
  (forall b keySecret,
     verify_gates e b keySecret (pre ++ Item.Nullish :: rest) ->
     verify e w user b
     = (caught "Payment verification failed", mkWorld ps1 (orders w)))
  /\ (forall b transactionId,
     manual_gates b transactionId (pre ++ Item.Nullish :: rest) ->
     manual w user b
     = (caught "Failed to process payment", mkWorld ps1 (orders w))).
Proof.
  intros Hpre.
  assert (Hloop : decrement_inventory (products w) (pre ++ Item.Nullish :: rest)
                  = (Thrown, ps1))
    by now rewrite (decrement_inventory_app _ ps1).
  split.
  - intros b keySecret Hg. rewrite (verify_reaches_checkout _ _ _ _ _ _ Hg).
    unfold verify_checkout. now rewrite Hloop.
  - intros b t Hg. rewrite (manual_reaches_checkout _ _ _ _ _ Hg).
    unfold manual_checkout. now rewrite Hloop.
Qed.

Lemma null_item_aborts_after_the_decrements_witness :
  let w := Sample.shop 5 1 1 in
  let items := [Sample.line "P1" VUndef (VNum (of_Z 2)); Item.Nullish;
                Sample.line "P1" VUndef (VNum (of_Z 1))] in
  let left := mkWorld (<[lit "P1" := Sample.flat 3]> (products w)) [] in
  verify Sample.env w Sample.user
    (Sample.verify_body Sample.sig (Some items) (VStr (lit "411001")))
    = (caught "Payment verification failed", left)
  /\ manual w Sample.user
       (Sample.manual_body (VStr (lit "T1")) (Some items) (VStr (lit "411001")))
     = (caught "Failed to process payment", left).
Proof.
  intros w items left.
  destruct (null_item_aborts_after_the_decrements Sample.env w Sample.user
              [Sample.line "P1" VUndef (VNum (of_Z 2))]
              [Sample.line "P1" VUndef (VNum (of_Z 1))]
              (products left) ltac:(concrete)) as (Hv & Hm).
  split.
  - apply (Hv _ (lit "s3cret")). gates.
  - apply (Hm _ (lit "T1")). gates.
Defined.

Lemma unresolved_loop (ps : gmap str Product.t) (items : list Item.t) :
  Forall (unresolved ps) items ->
  decrement_inventory ps items = (Completed, ps).
Proof.
  induction 1 as [|item items (o & -> & Ho) _ IH]; [reflexivity|].
  cbn [decrement_inventory].
  assert (E : decrement_item ps (Item.Obj o) = Next ps).
  { unfold decrement_item. destruct Ho as [-> | ->]; [reflexivity|].
    now destruct (truthy _). }
  now rewrite E.
Qed.

(** X14: line items that refer to no product, by a missing identifier or
    by one that resolves to nothing, are skipped without an error: the
    order is recorded with them and the products stay as they were. *)
Theorem order_for_unknown_products_is_recorded
  (e : Env) (w : World) (user : User.t) (items : list Item.t) :
  Forall (unresolved (products w)) items ->
  (forall b keySecret,
     verify_gates e b keySecret items ->
     verify e w user b
     = (json (Verified (lit "Payment verified successfully")
                (Some (verify_order user b items))
                (str_of (Verify.razorpayPaymentId b))
                (str_of (Verify.razorpayOrderId b))),
        mkWorld (products w) (orders w ++ [verify_order user b items])))
  /\ (forall b transactionId,
     manual_gates b transactionId items ->
     manual w user b
     = (json (ManualAccepted (manual_order user b transactionId items)
                (lit "Order created successfully. Your payment is pending verification.")),
        mkWorld (products w)
          (orders w ++ [manual_order user b transactionId items]))).
Proof.
  intros Hun. pose proof (unresolved_loop _ _ Hun) as Hloop. split.
  - intros b keySecret Hg. rewrite (verify_reaches_checkout _ _ _ _ _ _ Hg).
    unfold verify_checkout. now rewrite Hloop.
  - intros b t Hg. rewrite (manual_reaches_checkout _ _ _ _ _ Hg).
    unfold manual_checkout. now rewrite Hloop.
Qed.

Lemma order_for_unknown_products_is_recorded_witness :
  let w := Sample.shop 5 1 1 in
  let items := [Sample.line "P9" VUndef (VNum (of_Z 7));
                Item.Obj (Item.mk VUndef VUndef VUndef VUndef VUndef)] in
  let b := Sample.manual_body (VStr (lit "T1")) (Some items)
             (VStr (lit "411001")) in
  manual w Sample.user b
  = (json (ManualAccepted (manual_order Sample.user b (lit "T1") items)
             (lit "Order created successfully. Your payment is pending verification.")),
     mkWorld (products w) [manual_order Sample.user b (lit "T1") items]).
Proof.
  intros w items b.
  refine (proj2 (order_for_unknown_products_is_recorded Sample.env w
                   Sample.user items _) b (lit "T1") _); [|gates].
  repeat constructor.
  - eexists. split; [reflexivity|]. right. reflexivity.
  - eexists. split; [reflexivity|]. left. reflexivity.
Defined.



Lemma units_step (ps : gmap str Product.t) (item : Item.t) (k0 : str) (n : Z)
  (ps1 : gmap str Product.t) :
  flat_stocks ps -> line_for item k0 n ->
  decrement_item ps item = Next ps1 ->
  flat_stocks ps1
  /\ forall k p q, ps !! k = Some p -> Product.stock p = of_Z q ->
       exists p1, ps1 !! k = Some p1
         /\ Product.stock p1 = of_Z (q - if decide (k0 = k) then n else 0).
Proof.
  intros Hflat (o & -> & Hid & Hk & Hqty & Hn) H.
  destruct (ps !! k0) as [p0|] eqn:Hl.
  - destruct (Hflat k0 p0 Hl) as (Htr & q0 & Hst).
    rewrite (decrement_flat ps o k0 p0 q0 n) in H by assumption.
    destruct (q0 <? n)%Z; [discriminate|]. injection H as <-. split.
    + intros k p. unfold save. rewrite lookup_insert.
      destruct (decide (k0 = k)) as [<- |]; [|apply Hflat].
      intros [= <-]. simpl. eauto.
    + intros k p q Hp Hq. unfold save. rewrite lookup_insert.
      destruct (decide (k0 = k)) as [<- |].
      * eexists. split; [reflexivity|]. simpl.
        assert (q0 = q) as ->; [|reflexivity].
        rewrite Hl in Hp. injection Hp as ->. rewrite Hst in Hq.
        unfold of_Z in Hq. injection Hq. lia.
      * exists p. split; [assumption|]. now rewrite Z.sub_0_r.
  - assert (E : decrement_item ps (Item.Obj o) = Next ps).
    { unfold decrement_item. rewrite Hid, (truthy_VStr k0 Hk). simpl findById.
      now rewrite Hl. }
    rewrite E in H. injection H as <-. split; [assumption|].
    intros k p q Hp Hq. exists p. split; [assumption|].
    destruct (decide (k0 = k)) as [<- |]; [congruence|now rewrite Z.sub_0_r].
Qed.




(** *** Blank identifiers, sizes, and the two routes together *)

Lemma blank_trimStart (s : str) : blank (trimStart s) = blank s.
Proof.
  induction s as [|c s IH]; [reflexivity|]. simpl.
  destruct (is_ws c) eqn:E; [exact IH|]. simpl. now rewrite E.
Qed.

Lemma trimStart_nil (s : str) : trimStart s = [] <-> blank s = true.
Proof.
  induction s as [|c s IH]; [easy|]. simpl.
  destruct (is_ws c); [exact IH|]. split; discriminate.
Qed.

Lemma blank_rev (s : str) : blank (rev s) = blank s.
Proof.
  unfold blank. apply eq_true_iff_eq. rewrite !forallb_forall.
  split; intros H x Hx; apply H; [now apply in_rev in Hx|now apply in_rev].
Qed.

Lemma trim_nil (s : str) : trim s = [] <-> blank s = true.
Proof.
  unfold trim, trimEnd.
  rewrite <- (blank_trimStart s), <- (blank_rev (trimStart s)), <- trimStart_nil.
  split; [|now intros ->].
  intros H. apply (f_equal (@rev N)) in H. now rewrite rev_involutive in H.
Qed.

(** X16: the test [!v || typeof v !== 'string' || !v.trim()] of /verify
    lets through exactly the strings that hold a character that is not
    white space. *)
Theorem blank_identifier_is_a_missing_one (v : val) :
  missing_or_invalid v = false <-> exists s, v = VStr s /\ blank s = false.
Proof.
  unfold missing_or_invalid. split.
  - intros H. apply orb_false_iff in H as [_ H].
    destruct v as [| | | |s]; try discriminate. exists s. split; [reflexivity|].
    destruct (blank s) eqn:E; [|reflexivity].
    apply trim_nil in E. now rewrite E in H.
  - intros (s & -> & Hs).
    assert (Ht : trim s <> []) by (rewrite trim_nil; congruence).
    assert (Hn : s <> []) by (intros ->; discriminate).
    now rewrite (truthy_VStr s Hn), (truthy_VStr _ Ht).
Qed.

(** X17: /manual answers 400 "Transaction ID is required", leaving the
    world as it was, exactly when the transaction id is falsy or is a
    string of white space only. *)
Theorem blank_transaction_id_is_required
  (w : World) (user : User.t) (b : Manual.body) :
  manual w user b = (fail 400 "Transaction ID is required", w)
  <-> truthy (Manual.transactionId b) = false
      \/ exists t, Manual.transactionId b = VStr t /\ blank t = true.
Proof.
  split.
  - destruct (truthy (Manual.transactionId b)) eqn:Ht; [|now left].
    intros H. right.
    destruct (manual_cases w user b)
      as [(m & E) | [(_ & _ & E) | (t & items & Hg & E)]].
    + revert H. unfold manual. rewrite Ht. cbn [negb].
      destruct (Manual.transactionId b) as [| | | |t]; try discriminate.
      destruct (truthy (VStr (trim t))) eqn:Htr; cbn [negb].
      * destruct (Manual.items b) as [[|item items]|]; try discriminate.
        destruct (negb (truthy (Manual.city b)) || negb (truthy (Manual.state b))
                  || negb (truthy (Manual.pincode b))); [discriminate|].
        destruct (negb (pinOk (Manual.pincode b))); [discriminate|].
        intros H. exfalso.
        destruct (manual_checkout_settled w user b t (item :: items))
          as [pre it rest ps1 r Hit Hpre Hins|pre rest ps1 Hit Hpre|ps1 Hloop];
          try discriminate.
        destruct Hins; discriminate.
      * intros _. exists t. split; [reflexivity|]. apply trim_nil.
        now destruct (trim t).
    + rewrite E in H. discriminate.
    + exfalso. rewrite E in H.
      destruct (manual_checkout_settled w user b t items)
        as [pre it rest ps1 r Hit Hpre Hins|pre rest ps1 Hit Hpre|ps1 Hloop];
        try discriminate.
      destruct Hins; discriminate.
  - unfold manual. intros [-> |(t & -> & Ht)]; [reflexivity|].
    apply trim_nil in Ht. rewrite Ht. now destruct (truthy (VStr t)).
Qed.

Lemma findIndex_first {A : Type} (f : A -> bool) (pre : list A) (x : A)
  (post : list A) :
  Forall (fun y => f y = false) pre -> f x = true ->
  findIndex f (pre ++ x :: post) = Some (length pre).
Proof.
  intros Hpre Hx. induction Hpre as [|y pre Hy _ IH]; simpl.
  - now rewrite Hx.
  - now rewrite Hy, IH.
Qed.



(** X12: for the same items, a /verify request and a /manual request that
    both reach the inventory loop leave the same products and answer
    with the same status, and with the same body when it is 409. *)
Theorem both_routes_take_the_same_stock
  (e : Env) (w : World) (user : User.t) (bv : Verify.body) (bm : Manual.body)
  (keySecret transactionId : str) (items : list Item.t) :
  verify_gates e bv keySecret items ->
  manual_gates bm transactionId items ->
  products (snd (verify e w user bv)) = products (snd (manual w user bm))
  /\ status (fst (verify e w user bv)) = status (fst (manual w user bm))
  /\ (status (fst (verify e w user bv)) = 409%nat ->
      fst (verify e w user bv) = fst (manual w user bm)).
Proof.
  intros Hv Hm.
  rewrite (verify_reaches_checkout _ _ _ _ _ _ Hv),
    (manual_reaches_checkout _ _ _ _ _ Hm).
  unfold verify_checkout, manual_checkout.
  destruct (decrement_inventory (products w) items) as [[|r|] ps1]; simpl;
    repeat split; trivial; discriminate.
Qed.

Lemma both_routes_take_the_same_stock_witness :
  let w := Sample.shop 5 1 1 in
  let items := [Sample.line "P1" VUndef (VNum (of_Z 2));
                Sample.line "P2" (VStr (lit "M")) (VNum (of_Z 2))] in
  let bv := Sample.verify_body Sample.sig (Some items) (VStr (lit "411001")) in
  let bm := Sample.manual_body (VStr (lit "T1")) (Some items) (VNum (of_Z 411001)) in
  products (snd (verify Sample.env w Sample.user bv))
  = products (snd (manual w Sample.user bm))
  /\ status (fst (verify Sample.env w Sample.user bv))
     = status (fst (manual w Sample.user bm)).
Proof.
  intros w items bv bm.
  destruct (both_routes_take_the_same_stock Sample.env w Sample.user bv bm
              (lit "s3cret") (lit "T1") items) as (H1 & H2 & _);
    [gates|gates|].
  exact (conj H1 H2).
Defined.

(** X11: /verify keeps no trace of the payments it has seen: when the
    request that recorded an order is sent again and there is stock for
    it, the same order is recorded a second time. *)
Theorem replayed_payment_is_recorded_again
  (e : Env) (w : World) (user : User.t) (b : Verify.body) (o1 o2 : Order.t) :
  recorded (fst (verify e w user b)) = Some o1 ->
  recorded (fst (verify e (snd (verify e w user b)) user b)) = Some o2 ->
  o2 = o1
  /\ orders (snd (verify e (snd (verify e w user b)) user b))
     = orders w ++ [o1; o1].
Proof.
  intros H1 H2.
  destruct (verify_orders e w user b) as (Ho1 & Hr1).
  destruct (verify_orders e (snd (verify e w user b)) user b) as (Ho2 & Hr2).
  destruct (Hr1 o1 H1) as (_ & E1 & _). destruct (Hr2 o2 H2) as (_ & E2 & _).
  split; [congruence|].
  rewrite Ho2, Ho1, H1, H2, <- app_assoc. simpl. congruence.
Qed.

Lemma replayed_payment_is_recorded_again_witness :
  let w := Sample.shop 5 1 1 in
  let items := [Sample.line "P1" VUndef (VNum (of_Z 2))] in
  let b := Sample.verify_body Sample.sig (Some items) (VStr (lit "411001")) in
  let o := verify_order Sample.user b items in
  o = o
  /\ orders (snd (verify Sample.env (snd (verify Sample.env w Sample.user b))
                    Sample.user b))
     = orders w ++ [o; o].
Proof.
  intros w items b o.
  apply (replayed_payment_is_recorded_again Sample.env w Sample.user b o o);
    concrete.
Defined.


(** *** Amounts that are strings, and the success of /create-order *)

Lemma uint_val_pos (d : Decimal.uint) (acc : positive) :
  uint_val (N.pos acc) d = N.pos (Pos.of_uint_acc d acc).
Proof.
  revert acc. induction d; intros acc; simpl; [reflexivity|..];
    rewrite <- IHd; f_equal; lia.
Qed.

Lemma uint_val_of_uint (d : Decimal.uint) : uint_val 0 d = N.of_uint d.
Proof.
  unfold N.of_uint.
  induction d; simpl; trivial; rewrite <- uint_val_pos; reflexivity.
Qed.

Lemma read_digits_printed (d : Decimal.uint) (acc : N) (k : nat) (rest : str) :
  read_digits 10 acc k (uint_units d ++ rest)
  = read_digits 10 (uint_val acc d) (k + Decimal.nb_digits d) rest.
Proof.
  revert acc k. induction d; intros acc k; simpl uint_units; simpl uint_val;
    [now rewrite Nat.add_0_r|..];
    cbn [app read_digits];
    match goal with
    | |- context [digit_of 10 ?c] =>
        let j := eval compute in (c - 48) in
        change (digit_of 10 c) with (Some j)
    end; cbv iota beta; rewrite IHd; simpl Decimal.nb_digits;
    rewrite ?N.add_0_r, Nat.add_succ_r; reflexivity.
Qed.

Lemma read_digits_stop (acc : N) (k : nat) (rest : str) :
  ends_number rest -> read_digits 10 acc k rest = (acc, k, rest).
Proof.
  destruct rest as [|c rest]; [reflexivity|]. simpl. intros H.
  unfold continues_number in H.
  apply orb_false_iff in H as [H _]. apply orb_false_iff in H as [H _].
  apply orb_false_iff in H as [H _].
  unfold digit_of. unfold is_digit in H. rewrite H.
  destruct ((97 <=? c) && (c <=? 102)) eqn:Ha.
  - apply andb_true_iff in Ha as [H1 H2].
    apply N.leb_le in H1. replace (c - 87 <? 10) with false; [reflexivity|].
    symmetry. apply N.ltb_ge. lia.
  - destruct ((65 <=? c) && (c <=? 70)) eqn:Hb; [|reflexivity].
    apply andb_true_iff in Hb as [H1 H2].
    apply N.leb_le in H1. replace (c - 55 <? 10) with false; [reflexivity|].
    symmetry. apply N.ltb_ge. lia.
Qed.

Lemma printed_head (n : N) :
  exists c t, N_units n = c :: t /\ is_digit c = true.
Proof.
  unfold N_units.
  assert (H : N.to_uint n <> Decimal.Nil).
  { destruct n; [discriminate|apply Unsigned.to_uint_nonnil]. }
  destruct (N.to_uint n); [easy|..]; simpl; eauto.
Qed.

Lemma printed_digits (n : N) : (0 < Decimal.nb_digits (N.to_uint n))%nat.
Proof.
  assert (H : N.to_uint n <> Decimal.Nil).
  { destruct n; [discriminate|apply Unsigned.to_uint_nonnil]. }
  destruct (N.to_uint n); [easy|..]; simpl; lia.
Qed.

(** [parseFloat] reads back the integer [String] printed, and stops at
    what cannot go on the number. *)
Lemma parseFloat_printed (n : N) (rest : str) :
  ends_number rest ->
  parseFloat (VStr (N_units n ++ rest)) = of_Z (Z.of_N n).
Proof.
  intros Hrest. unfold parseFloat. simpl ToString.
  destruct (printed_head n) as (c & t & Hn & Hc).
  assert (Hc' := Hc). unfold is_digit in Hc'.
  apply andb_true_iff in Hc' as [H1 H2]. apply N.leb_le in H1, H2.
  assert (Hws : is_ws c = false).
  { unfold is_ws. repeat (apply orb_false_iff; split);
      try (apply andb_false_iff; right; apply N.leb_gt; lia);
      try (apply N.eqb_neq; lia).
    apply andb_false_iff; left. apply N.leb_gt. lia. }
  assert (Htrim : trimStart (N_units n ++ rest) = N_units n ++ rest)
    by (rewrite Hn; simpl; now rewrite Hws).
  rewrite Htrim. unfold read_decimal.
  assert (Hsign : read_sign (N_units n ++ rest) = (false, N_units n ++ rest)).
  { rewrite Hn. simpl. destruct c as [|p]; [lia|].
    do 7 (destruct p as [p|p|]; try reflexivity; try lia). }
  rewrite Hsign.
  assert (Hinf : starts_with (lit "Infinity") (N_units n ++ rest) = false).
  { rewrite Hn. change (lit "Infinity") with (73 :: lit "nfinity").
    cbn [app starts_with]. replace (73 =? c) with false; [reflexivity|].
    symmetry. apply N.eqb_neq. lia. }
  rewrite Hinf.
  unfold N_units at 1. rewrite read_digits_printed, uint_val_of_uint.
  rewrite DecimalN.Unsigned.of_to. rewrite read_digits_stop by assumption.
  assert (Hpoint : match rest with
                   | 46 :: t0 => read_digits 10 n 0 t0
                   | _ => (n, 0%nat, rest)
                   end = (n, 0%nat, rest)).
  { destruct rest as [|c0 r]; [reflexivity|]. simpl in Hrest.
    unfold continues_number in Hrest.
    apply orb_false_iff in Hrest as [Hr _]. apply orb_false_iff in Hr as [Hr _].
    apply orb_false_iff in Hr as [_ Hr]. apply N.eqb_neq in Hr.
    destruct c0 as [|p]; [reflexivity|].
    repeat (destruct p as [p|p|]; try reflexivity). congruence. }
  rewrite Hpoint.
  pose proof (printed_digits n) as Hd.
  destruct (0 + Decimal.nb_digits (N.to_uint n) + 0)%nat eqn:Hsum; [lia|].
  assert (Hexp : match rest with
                 | c0 :: t0 =>
                     if (c0 =? 101) || (c0 =? 69)
                     then
                       let '(eneg, t1) := read_sign t0 in
                       let '(ev, ne, t2) := read_digits 10 0 0 t1 in
                       match ne with
                       | 0%nat => (0%Z, rest)
                       | S _ => (if eneg then (- Z.of_N ev)%Z else Z.of_N ev, t2)
                       end
                     else (0%Z, rest)
                 | [] => (0%Z, rest)
                 end = (0%Z, rest)).
  { destruct rest as [|c0 r]; [reflexivity|]. simpl in Hrest.
    unfold continues_number in Hrest.
    apply orb_false_iff in Hrest as [Hr He2]. apply orb_false_iff in Hr as [_ He1].
    now rewrite He1, He2. }
  rewrite Hexp. unfold of_Z. do 2 f_equal.
  etransitivity; [|apply Qred_inject_Z]. apply Qred_complete.
  simpl signed. change (0 - Z.of_nat 0)%Z with 0%Z. simpl Qpower.
  apply Qmult_1_r.
Qed.

(** X21: an amount sent as a string of decimal digits followed by text
    that cannot go on a number is handled as the number the digits
    write: [parseFloat] reads the digits and drops the rest. *)
Theorem amount_string_is_read_as_its_number
  (e : Env) (w : World) (b : CreateOrder.body) (n : N) (rest : str) :
  CreateOrder.amount b = VStr (N_units n ++ rest) -> ends_number rest ->
  create_order e w b
  = create_order e w
      (CreateOrder.mk (VNum (of_Z (Z.of_N n))) (CreateOrder.currency b)
         (CreateOrder.items b) (CreateOrder.appliedCoupon_code b)).
Proof.
  intros Ha Hrest. unfold create_order, remote_call.
  rewrite Ha, (parseFloat_printed n rest Hrest). reflexivity.
Qed.

Lemma amount_string_is_read_as_its_number_witness :
  let items := Some [Sample.line "P1" VUndef (VNum (of_Z 1))] in
  create_order Sample.env (Sample.shop 5 1 1)
    (Sample.order_body (VStr (lit "49900 paise")) items)
  = create_order Sample.env (Sample.shop 5 1 1)
      (Sample.order_body (VNum (of_Z 49900)) items).
Proof.
  intros items.
  apply (amount_string_is_read_as_its_number Sample.env (Sample.shop 5 1 1)
           (Sample.order_body (VStr (lit "49900 paise")) items)
           49900 (lit " paise")); reflexivity.
Defined.

Lemma notes_of_null (items : list Item.t) :
  In Item.Nullish items -> notes_of items = None.
Proof.
  induction items as [|item items IH]; [easy|].
  intros [-> | H]; [reflexivity|]. simpl.
  destruct item; [reflexivity|]. now rewrite (IH H).
Qed.

(** X22: a null or undefined entry in the items of /create-order makes
    [i.title] throw inside the [try] around the provider call, so the
    request is answered 502 "Failed to create order with payment
    provider" although the provider was never reached. *)
Theorem null_item_is_a_provider_failure
  (e : Env) (w : World) (b : CreateOrder.body) (items : list Item.t)
  (rzp : Razorpay) :
  valid_amount b = true ->
  CreateOrder.items b = Some items -> In Item.Nullish items ->
  getRazorpayInstance e = Some rzp ->
  le (amountInPaise b) (of_Z 0) = false ->
  create_order e w b
  = (fail 502 "Failed to create order with payment provider", w).
Proof.
  intros Ha Hi Hnull Hc Hr.
  rewrite (create_order_remote e w b rzp items); try assumption.
  - unfold remote_call. now rewrite (notes_of_null items Hnull).
  - intros ->. destruct Hnull.
Qed.

Lemma null_item_is_a_provider_failure_witness :
  let w := Sample.shop 5 1 1 in
  create_order Sample.env w
    (Sample.order_body (VNum (of_Z 500))
       (Some [Sample.line "P1" VUndef (VNum (of_Z 1)); Item.Nullish]))
  = (fail 502 "Failed to create order with payment provider", w).
Proof.
  intros w.
  apply (null_item_is_a_provider_failure Sample.env w
           (Sample.order_body (VNum (of_Z 500))
              (Some [Sample.line "P1" VUndef (VNum (of_Z 1)); Item.Nullish]))
           [Sample.line "P1" VUndef (VNum (of_Z 1)); Item.Nullish]
           (mkRazorpay (VStr (lit "rzp_key")) (VStr (lit "s3cret")))).
  - concrete.
  - reflexivity.
  - right. left. reflexivity.
  - reflexivity.
  - concrete.
Defined.

(** X23: what a success of /create-order tells: [RAZORPAY_KEY_ID] is set
    in the process environment and is the key returned; the amount
    returned is the rounded amount of the request and is an integer of
    at least 1; the order id and the currency returned are truthy; and
    the provider was called with that amount and returned an order with
    that id. *)
Theorem create_order_success_means
  (e : Env) (w : World) (b : CreateOrder.body)
  (orderId : val) (amount : num) (currency keyId : val) :
  body (fst (create_order e w b)) = OrderCreated orderId amount currency keyId ->
  (exists k, RAZORPAY_KEY_ID e = Some k /\ k <> [] /\ keyId = VStr k)
  /\ (exists z : Z, (1 <= z)%Z /\ amount = of_Z z)
  /\ amount = amountInPaise b
  /\ truthy orderId = true /\ truthy currency = true
  /\ exists rzp items notes razorpayOrder,
       getRazorpayInstance e = Some rzp
       /\ CreateOrder.items b = Some items
       /\ orders_create e rzp
            (mkArgs amount (or (CreateOrder.currency b) (VStr (lit "INR")))
               notes
               (or (CreateOrder.appliedCoupon_code b) (VStr (lit "none"))))
          = RemoteReturns (Some razorpayOrder)
       /\ remote_id razorpayOrder = orderId.
Proof.
  unfold create_order, amountInPaise.
  destruct (parseFloat (CreateOrder.amount b)) as [| | |q] eqn:Hp;
    try discriminate.
  simpl Number_isFinite. cbn [negb orb].
  destruct (le (Fin q) (of_Z 0)) eqn:Hpos; [discriminate|].
  destruct (CreateOrder.items b) as [[|item items]|]; try discriminate.
  destruct (getRazorpayInstance e) as [rzp|]; [|discriminate].
  destruct (le (Math_round (Fin q)) (of_Z 0)) eqn:Hr; [discriminate|].
  unfold remote_call.
  destruct (notes_of (item :: items)) as [notes|]; [|discriminate].
  destruct (orders_create e rzp _) as [|[ro|]] eqn:Hcall; try discriminate.
  destruct (truthy (remote_id ro)) eqn:Hid; cbn [negb]; [|discriminate].
  destruct (RAZORPAY_KEY_ID e) as [k|]; simpl env_val; [|discriminate].
  destruct k as [|c k]; [discriminate|]. simpl truthy. cbn [negb].
  simpl. intros [= <- <- <- <-].
  split; [exists (c :: k); now repeat split|].
  split.
  { exists (Qfloor (q + (1 # 2))). split; [|reflexivity].
    unfold Math_round, le, of_Z in Hr.
    destruct (Z_le_gt_dec 1 (Qfloor (q + (1 # 2)))) as [H|H]; [exact H|].
    rewrite Qle_bool_true in Hr; [discriminate|].
    rewrite <- Zle_Qle. lia. }
  split; [reflexivity|]. split; [exact Hid|]. split.
  { unfold or. destruct (truthy (remote_currency ro)) eqn:Hc; [exact Hc|reflexivity]. }
  exists rzp, (item :: items), notes, ro. now repeat split.
Qed.

Lemma create_order_success_means_witness :
  let b := Sample.order_body (VNum (Fin (4995 # 10)))
             (Some [Sample.line "P1" VUndef (VNum (of_Z 1))]) in
  (exists k, Some (lit "rzp_key") = Some k /\ k <> []
             /\ VStr (lit "rzp_key") = VStr k)
  /\ (exists z : Z, (1 <= z)%Z /\ of_Z 500 = of_Z z)
  /\ of_Z 500 = amountInPaise b.
Proof.
  intros b.
  destruct (create_order_success_means Sample.env (Sample.shop 5 1 1) b
              (VStr (lit "order_9")) (of_Z 500) (VStr (lit "INR"))
              (VStr (lit "rzp_key")) ltac:(concrete)) as (H1 & H2 & H3 & _).
  exact (conj H1 (conj H2 H3)).
Defined.


(** *** Pincodes that are numbers *)

Lemma uint_units_length (d : Decimal.uint) :
  length (uint_units d) = Decimal.nb_digits d.
Proof. induction d; simpl; congruence. Qed.

Lemma uint_units_digits (d : Decimal.uint) :
  forallb is_digit (uint_units d) = true.
Proof. induction d; simpl; trivial. Qed.

Lemma uint_val_split (d : Decimal.uint) :
  (forall acc,
     uint_val acc d = acc * 10 ^ N.of_nat (Decimal.nb_digits d) + uint_val 0 d)
  /\ uint_val 0 d < 10 ^ N.of_nat (Decimal.nb_digits d).
Proof.
  induction d as [|d [IH1 IH2]|d [IH1 IH2]|d [IH1 IH2]|d [IH1 IH2]|d [IH1 IH2]
                  |d [IH1 IH2]|d [IH1 IH2]|d [IH1 IH2]|d [IH1 IH2]|d [IH1 IH2]];
    [split; [intros acc; simpl; lia|simpl; lia]|..];
    (cbn [uint_val Decimal.nb_digits]; rewrite Nat2N.inj_succ, N.pow_succ_r';
     set (X := 10 ^ N.of_nat (Decimal.nb_digits d)) in *;
     split; [intros acc|];
     repeat match goal with
            | |- context [uint_val ?a d] =>
                lazymatch a with
                | 0 => fail
                | _ => rewrite (IH1 a)
                end
            end; lia).
Qed.

Lemma printed_normal (n : N) (d : Decimal.uint) :
  N.to_uint n = Decimal.D0 d -> d = Decimal.Nil.
Proof.
  intros H. pose proof (DecimalN.Unsigned.to_of (N.to_uint n)) as E.
  rewrite DecimalN.Unsigned.of_to, H in E.
  change (Decimal.unorm (Decimal.D0 d)) with (Decimal.unorm d) in E.
  destruct (Decimal.uint_eq_dec d Decimal.Nil) as [->|Hd]; [reflexivity|].
  pose proof (nb_digits_unorm d Hd) as Hle. rewrite <- E in Hle.
  simpl in Hle. lia.
Qed.

Lemma printed_bounds (n : N) :
  n < 10 ^ N.of_nat (Decimal.nb_digits (N.to_uint n))
  /\ (n <> 0 -> 10 ^ (N.of_nat (Decimal.nb_digits (N.to_uint n)) - 1) <= n).
Proof.
  assert (E : uint_val 0 (N.to_uint n) = n)
    by (rewrite uint_val_of_uint; apply DecimalN.Unsigned.of_to).
  split.
  - rewrite <- E at 1. apply uint_val_split.
  - intros Hn. revert E.
    destruct (N.to_uint n) as [|d|d|d|d|d|d|d|d|d|d] eqn:Hd;
      [simpl; lia | apply printed_normal in Hd as ->; simpl; lia | ..];
      (cbn [uint_val Decimal.nb_digits];
       rewrite (proj1 (uint_val_split d)), Nat2N.inj_succ;
       replace (N.succ (N.of_nat (Decimal.nb_digits d)) - 1)
         with (N.of_nat (Decimal.nb_digits d)) by lia;
       intros <-; nia).
Qed.

Lemma printed_length (n : N) (k : nat) :
  (1 < k)%nat ->
  (k <= length (N_units n))%nat <-> 10 ^ (N.of_nat k - 1) <= n.
Proof.
  intros Hk. unfold N_units. rewrite uint_units_length.
  destruct (printed_bounds n) as [Hup Hlow].
  set (m := Decimal.nb_digits (N.to_uint n)) in *.
  split.
  - intros H. destruct (N.eq_dec n 0) as [->|Hn].
    + subst m. simpl in H. lia.
    + etransitivity; [|apply (Hlow Hn)]. apply N.pow_le_mono_r; lia.
  - intros H. destruct (le_lt_dec k m) as [Hle|Hlt]; [exact Hle|]. exfalso.
    assert (10 ^ N.of_nat m <= 10 ^ (N.of_nat k - 1))
      by (apply N.pow_le_mono_r; lia).
    lia.
Qed.

(** X18: a pincode sent as an integer number passes
    [/^\d{4,8}$/.test(String(pincode))] exactly when it lies between
    1000 and 99999999. *)
Theorem numeric_pincode_range (z : Z) :
  pinOk (VNum (of_Z z)) = true <-> (1000 <= z <= 99999999)%Z.
Proof.
  unfold pinOk, ToString, of_Z, Number_toString, inject_Z, Qnum, Qden.
  rewrite N.mod_1_r, N.div_1_r. change (0 =? 0) with true. cbn [andb].
  destruct (Z.abs_N z <? 10 ^ 21) eqn:Hbig.
  - apply N.ltb_lt in Hbig.
    destruct (Z.abs_N z =? 0) eqn:Hz.
    + apply N.eqb_eq in Hz. rewrite Hz. split; [discriminate|lia].
    + apply N.eqb_neq in Hz. destruct (z <? 0)%Z eqn:Hneg.
      * apply Z.ltb_lt in Hneg. split; [|lia].
        unfold pin_re_test. simpl forallb. rewrite andb_false_r. discriminate.
      * apply Z.ltb_ge in Hneg. cbn [app].
        unfold pin_re_test. unfold N_units at 3.
        rewrite uint_units_digits, andb_true_r, andb_true_iff.
        rewrite !Nat.leb_le.
        rewrite (printed_length (Z.abs_N z) 4) by lia.
        assert (H9 : (length (N_units (Z.abs_N z)) <= 8)%nat
                     <-> ~ 10 ^ (N.of_nat 9 - 1) <= Z.abs_N z).
        { rewrite <- (printed_length (Z.abs_N z) 9) by lia. lia. }
        rewrite H9. change (10 ^ (N.of_nat 4 - 1)) with 1000.
        change (10 ^ (N.of_nat 9 - 1)) with 100000000. lia.
  - apply N.ltb_ge in Hbig. split.
    + unfold pin_re_test. rewrite forallb_app. unfold N_units.
      rewrite forallb_app. simpl forallb at 3.
      rewrite !andb_false_r. discriminate.
    + change (10 ^ 21) with 1000000000000000000000 in Hbig. lia.
Qed.


(** *** The shape of a signature *)

Lemma round_length (st : list N) (kw : N * N) :
  length st = 8%nat -> length (Sha256.round st kw) = 8%nat.
Proof.
  intros H. do 9 (destruct st as [|? st]; try discriminate). reflexivity.
Qed.

Lemma rounds_length (kws : list (N * N)) (st : list N) :
  length st = 8%nat -> length (fold_left Sha256.round kws st) = 8%nat.
Proof.
  revert st. induction kws as [|kw kws IH]; intros st H; [exact H|].
  simpl. apply IH. now apply round_length.
Qed.

Lemma zip_length (xs ys : list N) :
  length (Sha256.zip xs ys) = Nat.min (length xs) (length ys).
Proof.
  revert ys. induction xs as [|x xs IH]; intros [|y ys]; simpl; auto.
Qed.

Lemma compress_length (h block : list N) :
  length h = 8%nat -> length (Sha256.compress h block) = 8%nat.
Proof.
  intros H. unfold Sha256.compress.
  rewrite length_map, zip_length, rounds_length, H; auto.
Qed.

Lemma digest_length (msg : list N) : length (Sha256.digest msg) = 32%nat.
Proof.
  unfold Sha256.digest.
  set (bs := Sha256.blocks _ _).
  assert (H : length (fold_left Sha256.compress bs Sha256.H0) = 8%nat).
  { assert (H0 : length Sha256.H0 = 8%nat)
      by (unfold Sha256.H0; now rewrite length_map).
    revert H0. generalize Sha256.H0. clearbody bs.
    induction bs as [|b bs IH]; intros h Hh; [exact Hh|].
    simpl. apply IH. now apply compress_length. }
  revert H. generalize (fold_left Sha256.compress bs Sha256.H0).
  intros l Hl. do 9 (destruct l as [|? l]; try discriminate). reflexivity.
Qed.

Lemma digest_bytes (msg : list N) : Forall (fun b => b < 256) (Sha256.digest msg).
Proof.
  unfold Sha256.digest. apply Forall_concat, Forall_forall.
  intros bs Hin. apply list_elem_of_In, in_map_iff in Hin as (x & <- & _).
  unfold Sha256.bytes_of. repeat constructor; apply N.mod_lt; discriminate.
Qed.

Lemma hex_length (bs : list N) : length (Sha256.hex bs) = (2 * length bs)%nat.
Proof.
  unfold Sha256.hex. induction bs as [|b bs IH]; [reflexivity|].
  simpl in *. rewrite IH. lia.
Qed.

Lemma hex_digit_lower (d : N) : d < 16 -> is_lower_hex (Sha256.hex_digit d) = true.
Proof.
  intros H. unfold Sha256.hex_digit, is_lower_hex.
  destruct (N.ltb_spec d 10).
  - apply orb_true_iff. left. apply andb_true_iff.
    split; apply N.leb_le; lia.
  - apply orb_true_iff. right. apply andb_true_iff.
    split; apply N.leb_le; lia.
Qed.

Lemma hex_lower (bs : list N) :
  Forall (fun b => b < 256) bs ->
  Forall (fun c => is_lower_hex c = true) (Sha256.hex bs).
Proof.
  unfold Sha256.hex. induction 1 as [|b bs Hb _ IH]; [constructor|].
  simpl. constructor; [|constructor; [|exact IH]]; apply hex_digit_lower.
  - apply N.Div0.div_lt_upper_bound. lia.
  - apply N.mod_lt. discriminate.
Qed.

(** X19: a signature that passes the check of /verify is 64 characters
    long and made of the digits and the letters [a] to [f] in lower
    case: an upper-case rendering of the right digest is refused. *)
Theorem matching_signature_is_64_lower_hex
  (oid pid sig keySecret : str) :
  verifySignature oid pid sig keySecret = true ->
  length sig = 64%nat /\ Forall (fun c => is_lower_hex c = true) sig.
Proof.
  intros H. apply verifySignature_spec in H as ->.
  unfold generatedSignature, Sha256.createHmac_sha256_hex, Sha256.hmac.
  split.
  - now rewrite hex_length, digest_length.
  - apply hex_lower, digest_bytes.
Qed.

Lemma matching_signature_is_64_lower_hex_witness :
  length Sample.sig = 64%nat
  /\ Forall (fun c => is_lower_hex c = true) Sample.sig.
Proof.
  apply (matching_signature_is_64_lower_hex Sample.oid Sample.pid Sample.sig
           (lit "s3cret")).
  concrete.
Defined.

(** X20: the signed message does not tell where the order id ends when an
    identifier holds a bar: a signature is valid for the order id [a|b]
    with the payment id [c] exactly when it is valid for the order id
    [a] with the payment id [b|c]. *)
Theorem bar_in_an_identifier_moves_freely (keySecret sig a b c : str) :
  verifySignature (a ++ lit "|" ++ b) c sig keySecret
  = verifySignature a (b ++ lit "|" ++ c) sig keySecret.
Proof.
  unfold verifySignature, generatedSignature. now rewrite <- !app_assoc.
Qed.


(** *** The origin check *)

Import Cors.

Lemma starts_with_app (p t : str) : starts_with p (p ++ t) = true.
Proof.
  induction p as [|c p IH]; [reflexivity|]. simpl. now rewrite N.eqb_refl.
Qed.

Lemma starts_with_inv (p s : str) :
  starts_with p s = true -> s = p ++ drop (length p) s.
Proof.
  revert s. induction p as [|c p IH]; intros s; [reflexivity|].
  destruct s as [|d s]; simpl; [discriminate|].
  intros H. apply andb_true_iff in H as [Hc Hp]. apply N.eqb_eq in Hc as ->.
  f_equal. now apply IH.
Qed.

Lemma includes_head (s p : str) : starts_with p s = true -> includes s p = true.
Proof. destruct s; simpl; now intros ->. Qed.

Lemma includes_app (a m b : str) : includes (a ++ m ++ b) m = true.
Proof.
  induction a as [|c a IH]; simpl.
  - apply includes_head, starts_with_app.
  - rewrite IH. apply orb_true_r.
Qed.

Lemma endsWith_app (a m : str) : endsWith (a ++ m) m = true.
Proof. unfold endsWith. rewrite rev_app_distr. apply starts_with_app. Qed.

Lemma toLowerCase_app (a b : str) :
  toLowerCase (a ++ b) = toLowerCase a ++ toLowerCase b.
Proof. apply map_app. Qed.

Lemma includes_iff (s m : str) :
  includes s m = true <-> exists a b, s = a ++ m ++ b.
Proof.
  split.
  - induction s as [|c s IH]; simpl; intros H.
    + rewrite orb_false_r in H. apply starts_with_inv in H.
      exists [], (drop (length m) []). exact H.
    + apply orb_true_iff in H as [H|H].
      * apply starts_with_inv in H. exists [], (drop (length m) (c :: s)).
        exact H.
      * destruct (IH H) as (a & b & ->). now exists (c :: a), b.
  - intros (a & b & ->). apply includes_app.
Qed.

Lemma span_label_spec (s : str) :
  s = (span_label s).1 ++ (span_label s).2
  /\ Forall (fun c => is_label_unit c = true) (span_label s).1
  /\ match (span_label s).2 with
     | c :: _ => is_label_unit c = false
     | [] => True
     end.
Proof.
  induction s as [|c s (IH1 & IH2 & IH3)]; simpl; [now repeat split|].
  destruct (is_label_unit c) eqn:E.
  - destruct (span_label s) as [l r]; simpl in *. repeat split.
    + now f_equal.
    + now constructor.
    + exact IH3.
  - simpl. repeat split; [constructor | exact E].
Qed.

Lemma span_label_app (label rest : str) :
  Forall (fun c => is_label_unit c = true) label ->
  match rest with c :: _ => is_label_unit c = false | [] => True end ->
  span_label (label ++ rest) = (label, rest).
Proof.
  intros Hl Hr. induction Hl as [|c l Hc Hl IH]; simpl.
  - destruct rest as [|c r]; [reflexivity|]. simpl. now rewrite Hr.
  - now rewrite Hc, IH.
Qed.

Lemma ending_head (ending : str) :
  ending ∈ endings ->
  match ending with c :: _ => is_label_unit c = false | [] => True end.
Proof.
  unfold endings. rewrite !elem_of_cons, elem_of_nil.
  intros [->|[->|[->|[->|[->|[]]]]]]; reflexivity.
Qed.

Lemma drop_scheme (t : str) : drop 8 (lit "https://" ++ t) = t.
Proof. reflexivity. Qed.

Lemma origin_allowed_lower (cu : option str) (origin : str) :
  origin_allowed cu (Some origin) =
  match origin with
  | [] => true
  | _ :: _ =>
      includes (toLowerCase origin) (lit "localhost")
      || includes (toLowerCase origin) (lit "127.0.0.1")
      || truthy (env_val cu)
         && str_eqb (toLowerCase origin) (toLowerCase (str_of (env_val cu)))
      || endsWith (toLowerCase origin) (lit ".fly.dev")
      || endsWith (toLowerCase origin) (lit ".netlify.app")
      || includes (toLowerCase origin) (lit ".builder.my")
      || includes (toLowerCase origin) (lit ".builder.codes")
      || includes (toLowerCase origin) (lit ".builder.io")
      || includes (toLowerCase origin) (lit "projects.builder.codes")
      || preview_re_test (toLowerCase origin)
  end.
Proof.
  destruct origin as [|c origin]; [reflexivity|].
  unfold origin_allowed. cbv zeta.
  repeat match goal with
         | |- context [if ?b then true else _] => destruct b; cbn [orb andb]
         end; reflexivity.
Qed.

Lemma origin_allowed_marks (cu : option str) (o : str) (m : str) :
  m ∈ marks -> includes (toLowerCase o) m = true ->
  origin_allowed cu (Some o) = true.
Proof.
  intros Hm Hi. rewrite origin_allowed_lower.
  destruct o as [|c l]; [reflexivity|].
  unfold marks in Hm. rewrite !elem_of_cons, elem_of_nil in Hm.
  destruct Hm as [->|[->|[->|[->|[->|[]]]]]]; rewrite Hi;
    rewrite ?orb_true_r; reflexivity.
Qed.

Lemma origin_allowed_suffixes (cu : option str) (o : str) (m : str) :
  m ∈ suffixes -> endsWith (toLowerCase o) m = true ->
  origin_allowed cu (Some o) = true.
Proof.
  intros Hm Hi. rewrite origin_allowed_lower.
  destruct o as [|c l]; [reflexivity|].
  unfold suffixes in Hm. rewrite !elem_of_cons, elem_of_nil in Hm.
  destruct Hm as [->|[->|[]]]; rewrite Hi;
    rewrite ?orb_true_r; reflexivity.
Qed.

(** X24: the pattern of the last test of the origin check matches exactly
    the strings made of [https://], one label that is not empty and has
    only lower-case letters, digits and hyphens, and one of the endings
    [.name], [.net], [.dev], [.io], [.app]. *)
Theorem preview_pattern_matches_exactly (o : str) :
  preview_re_test o = true <->
  exists label ending,
    o = lit "https://" ++ label ++ ending /\ label <> []
    /\ Forall (fun c => is_label_unit c = true) label
    /\ ending ∈ endings.
Proof.
  unfold preview_re_test. split.
  - intros H. apply andb_true_iff in H as [Hs H].
    apply starts_with_inv in Hs. change (length (lit "https://")) with 8%nat in Hs.
    destruct (span_label_spec (drop 8 o)) as (E & Hl & _).
    destruct (span_label (drop 8 o)) as [label rest]; simpl in *.
    exists label, rest. rewrite <- E. split; [exact Hs|].
    destruct label as [|c label]; [discriminate|].
    split; [discriminate|]. split; [exact Hl|].
    now apply bool_decide_eq_true in H.
  - intros (label & ending & -> & Hne & Hl & He).
    rewrite starts_with_app, drop_scheme. simpl.
    rewrite (span_label_app _ _ Hl (ending_head _ He)).
    destruct label as [|c label]; [congruence|].
    now apply bool_decide_eq_true.
Qed.

(** X25: two origins that differ only in the case of their letters get the
    same answer, and so do two values of [CLIENT_URL] that differ only in
    case. *)
Theorem origin_check_ignores_letter_case (cu cu' : option str) (a b : str) :
  latin1 a = true -> latin1 b = true ->
  from_option latin1 true cu = true -> from_option latin1 true cu' = true ->
  toLowerCase a = toLowerCase b ->
  option_map toLowerCase cu = option_map toLowerCase cu' ->
  origin_allowed cu (Some a) = origin_allowed cu' (Some b).
Proof.
  intros _ _ _ _ Hab Hcu. rewrite !origin_allowed_lower, Hab.
  destruct a as [|x a], b as [|y b]; try discriminate; [reflexivity|].
  assert (truthy (env_val cu)
          && str_eqb (toLowerCase (y :: b)) (toLowerCase (str_of (env_val cu)))
          = truthy (env_val cu')
            && str_eqb (toLowerCase (y :: b)) (toLowerCase (str_of (env_val cu'))))
    as ->; [|reflexivity].
  destruct cu as [u|], cu' as [u'|]; try discriminate; [|reflexivity].
  injection Hcu as Hcu. simpl str_of. rewrite Hcu.
  f_equal. destruct u, u'; try discriminate; reflexivity.
Qed.

Lemma origin_check_ignores_letter_case_witness :
  origin_allowed (Some (lit "https://Shop.Example.com"))
    (Some (lit "HTTPS://SHOP.EXAMPLE.COM"))
  = origin_allowed (Some (lit "https://shop.example.com"))
      (Some (lit "https://shop.example.com")).
Proof.
  apply origin_check_ignores_letter_case; reflexivity.
Defined.

(** X26: an origin that holds, in any letter case and at any place, one of
    [localhost], [127.0.0.1], [.builder.my], [.builder.codes] or
    [.builder.io] is allowed, whatever stands before and after it and
    whatever [CLIENT_URL] is. *)
Theorem origin_naming_a_known_host_is_allowed
    (cu : option str) (a m b : str) :
  latin1 (a ++ m ++ b) = true ->
  toLowerCase m ∈ marks ->
  origin_allowed cu (Some (a ++ m ++ b)) = true.
Proof.
  intros _ Hm. apply origin_allowed_marks with (toLowerCase m); [exact Hm|].
  rewrite !toLowerCase_app. apply includes_app.
Qed.

Lemma origin_naming_a_known_host_is_allowed_witness :
  origin_allowed None
    (Some (lit "https://evil.example/?" ++ lit "LocalHost" ++ lit "#x"))
  = true.
Proof.
  apply (origin_naming_a_known_host_is_allowed None); [reflexivity|].
  unfold marks. rewrite elem_of_cons. left. reflexivity.
Defined.

(** X27: an origin that ends, in any letter case, in [.fly.dev] or
    [.netlify.app] is allowed, whatever stands before the ending: no
    scheme and no host are asked for. *)
Theorem origin_with_a_preview_suffix_is_allowed
    (cu : option str) (a m : str) :
  latin1 (a ++ m) = true ->
  toLowerCase m ∈ suffixes ->
  origin_allowed cu (Some (a ++ m)) = true.
Proof.
  intros _ Hm. apply origin_allowed_suffixes with (toLowerCase m); [exact Hm|].
  rewrite toLowerCase_app. apply endsWith_app.
Qed.

Lemma origin_with_a_preview_suffix_is_allowed_witness :
  origin_allowed None (Some (lit "ftp://anything" ++ lit ".Fly.Dev")) = true.
Proof.
  apply (origin_with_a_preview_suffix_is_allowed None); [reflexivity|].
  unfold suffixes. rewrite elem_of_cons. left. reflexivity.
Defined.

(** X28: setting [CLIENT_URL] allows one more origin and takes none away:
    an origin is allowed exactly when it is allowed without [CLIENT_URL]
    or is [CLIENT_URL] itself up to letter case. *)
Theorem client_url_adds_its_own_origin_only (cu : option str) (origin : str) :
  latin1 origin = true -> from_option latin1 true cu = true ->
  origin_allowed cu (Some origin) = true <->
  origin_allowed None (Some origin) = true
  \/ exists u, cu = Some u /\ u <> [] /\ toLowerCase origin = toLowerCase u.
Proof.
  intros _ _. rewrite !origin_allowed_lower.
  destruct origin as [|c l].
  { split; [now left | reflexivity]. }
  set (o := toLowerCase (c :: l)).
  change (truthy (env_val None)) with false. cbn [andb orb].
  rewrite orb_false_r.
  destruct (includes o (lit "localhost") || includes o (lit "127.0.0.1"));
    [split; [now left | reflexivity]|]. cbn [orb].
  destruct (truthy (env_val cu) && str_eqb o (toLowerCase (str_of (env_val cu)))) eqn:T;
    cbn [orb].
  - split; [|reflexivity]. intros _. right.
    apply andb_true_iff in T as [T1 T2].
    destruct cu as [u|]; [|discriminate]. exists u. simpl in *.
    split; [reflexivity|]. split.
    + intros ->. discriminate.
    + now apply bool_decide_eq_true in T2.
  - split; [now left|]. intros [H|(u & -> & Hu & Hl)]; [exact H|].
    exfalso. simpl in T. fold o in Hl. rewrite <- Hl in T.
    unfold str_eqb in T. rewrite bool_decide_eq_true_2 in T by reflexivity.
    rewrite andb_true_r in T. destruct u; [congruence|discriminate].
Qed.

Lemma client_url_adds_its_own_origin_only_witness :
  origin_allowed (Some (lit "https://Shop.Example.com"))
    (Some (lit "https://shop.example.COM")) = true
  /\ origin_allowed None (Some (lit "https://shop.example.COM")) = false.
Proof.
  split; [|reflexivity].
  refine (proj2 (client_url_adds_its_own_origin_only
                   (Some (lit "https://Shop.Example.com"))
                   (lit "https://shop.example.COM") eq_refl eq_refl) _).
  right. eexists. split; [reflexivity|]. split; [discriminate|reflexivity].
Defined.

(** X29: the fourth substring of the Builder test never decides: an
    origin that holds [projects.builder.codes] holds [.builder.codes]. *)
Theorem projects_builder_codes_is_subsumed (o : str) :
  includes o (lit "projects.builder.codes") = true ->
  includes o (lit ".builder.codes") = true.
Proof.
  rewrite !includes_iff. intros (a & b & ->).
  exists (a ++ lit "projects"), b. rewrite <- app_assoc. reflexivity.
Qed.

Lemma projects_builder_codes_is_subsumed_witness :
  includes (lit "https://abc.projects.builder.codes") (lit ".builder.codes")
  = true.
Proof.
  apply projects_builder_codes_is_subsumed. reflexivity.
Defined.
